(** * Stock price forecasting dashboard (app.py): a shallow embedding

    The script is one linear procedure: load the table, keep the companies
    with at least 180 rows, let the user select a company and a regressor,
    split the company's rows 80/20 without shuffling, fit, score, forecast
    and plot.  The embedding follows it line by line.  What the script
    delegates to pandas, scikit-learn, statsmodels, numpy and Streamlit is
    either written out from the documented behaviour of the call (column
    lookup, boolean masks, [value_counts], [sort_index], slices,
    [train_test_split] with [shuffle=False]) or taken from the interface
    [Library] below (tree ensembles, metrics, decomposition, rounding and
    number formatting). *)

From Stdlib Require Import List String Ascii ZArith Bool Arith Lia Floats.
From Stdlib Require Import Sorted Permutation.
Import ListNotations.

Local Open Scope string_scope.
Local Open Scope list_scope.
Local Open Scope nat_scope.

(** ** Python values and exceptions *)

Inductive exn : Type :=
| KeyError (key : string)
| ValueError (msg : string)
| NameError (name : string)
| IndexError (msg : string)
| FileNotFoundError (path : string)
| LibraryError (origin : string).

Inductive result (A : Type) : Type :=
| Ok (a : A)
| Err (e : exn).

Arguments Ok {A} a.
Arguments Err {A} e.

Definition is_ok {A : Type} (r : result A) : bool :=
  match r with Ok _ => true | Err _ => false end.

(** A dataframe cell: a Python string, a float64, or a missing value. *)
Inductive cell : Type :=
| Str (s : string)
| Num (x : float)
| Null.

(** [pd.isna]: [None] and NaN are missing. *)
Definition isna (c : cell) : bool :=
  match c with
  | Null => true
  | Num x => PrimFloat.is_nan x
  | Str _ => false
  end.

(** Elementwise [==] of pandas: strings by content, floats by IEEE
    equality, anything against a missing value is [False]. *)
Definition cell_eqb (a b : cell) : bool :=
  match a, b with
  | Str s, Str t => String.eqb s t
  | Num x, Num y => PrimFloat.eqb x y
  | _, _ => false
  end.

(** ** Dataframes

    A frame is its column names and its rows; a row carries its index
    label and one cell per column. *)

Record Row : Type := mkRow { label : Z; cells : list cell }.

Record DataFrame : Type := mkFrame { columns : list string; rows : list Row }.

Definition Series : Type := list cell.

Definition index (df : DataFrame) : list Z := map label (rows df).

Fixpoint index_of (c : string) (cols : list string) : option nat :=
  match cols with
  | [] => None
  | c' :: t =>
      if String.eqb c' c then Some 0
      else match index_of c t with Some i => Some (S i) | None => None end
  end.

Definition cell_at (i : nat) (r : Row) : cell := nth i (cells r) Null.

(** [df[c]]: a [KeyError] when the column does not exist. *)
Definition getcol (df : DataFrame) (c : string) : result Series :=
  match index_of c (columns df) with
  | Some i => Ok (map (cell_at i) (rows df))
  | None => Err (KeyError c)
  end.

Fixpoint positions (cols : list string) (wanted : list string) : result (list nat) :=
  match wanted with
  | [] => Ok []
  | c :: t =>
      match index_of c cols with
      | None => Err (KeyError c)
      | Some i =>
          match positions cols t with
          | Ok l => Ok (i :: l)
          | Err e => Err e
          end
      end
  end.

Definition project (ps : list nat) (r : Row) : Row :=
  mkRow (label r) (map (fun i => cell_at i r) ps).

(** [df[[c1; ...; cn]]]: a [KeyError] when one of the columns is missing.
    pandas names every missing column in the message of the exception;
    the [KeyError] carries here the first of them. *)
Definition getcols (df : DataFrame) (wanted : list string) : result DataFrame :=
  match positions (columns df) wanted with
  | Ok ps => Ok (mkFrame wanted (map (project ps) (rows df)))
  | Err e => Err e
  end.

(** [df[mask]] for a boolean series aligned with the rows. *)
Fixpoint mask_rows (rs : list Row) (mask : list bool) : list Row :=
  match rs, mask with
  | r :: rs', b :: mask' => if b then r :: mask_rows rs' mask' else mask_rows rs' mask'
  | _, _ => []
  end.

Definition boolean_index (df : DataFrame) (mask : list bool) : DataFrame :=
  mkFrame (columns df) (mask_rows (rows df) mask).

(** [s.isin(values)] and [s == v], elementwise. *)
Definition isin (values : list cell) (c : cell) : bool := existsb (cell_eqb c) values.

Definition series_isin (s : Series) (values : list cell) : list bool := map (isin values) s.

Definition series_eq (s : Series) (v : cell) : list bool := map (fun c => cell_eqb c v) s.

(** [s.value_counts()]: the distinct non-missing values with their number
    of occurrences, most frequent first. *)
Fixpoint vc_incr (k : cell) (acc : list (cell * nat)) : list (cell * nat) :=
  match acc with
  | [] => [(k, 1)]
  | (k', n) :: t => if cell_eqb k' k then (k', S n) :: t else (k', n) :: vc_incr k t
  end.

Definition vc_step (acc : list (cell * nat)) (c : cell) : list (cell * nat) :=
  if isna c then acc else vc_incr c acc.

Fixpoint insert_by_count (e : cell * nat) (l : list (cell * nat)) : list (cell * nat) :=
  match l with
  | [] => [e]
  | e' :: t => if snd e' <=? snd e then e :: l else e' :: insert_by_count e t
  end.

Definition sort_by_count (l : list (cell * nat)) : list (cell * nat) :=
  fold_right insert_by_count [] l.

Definition value_counts (s : Series) : list (cell * nat) :=
  sort_by_count (fold_left vc_step s []).

(** [counts[counts >= k].index.tolist()] *)
Definition at_least (k : nat) (counts : list (cell * nat)) : list cell :=
  map fst (filter (fun e => k <=? snd e) counts).

(** [df.sort_index()]: rows by ascending index label.  pandas sorts with
    quicksort, which leaves the order of rows with the same label
    unspecified; they keep their given order here, and no statement
    below depends on the order of such rows. *)
Fixpoint insert_by_label (r : Row) (l : list Row) : list Row :=
  match l with
  | [] => [r]
  | r' :: t => if (label r <=? label r')%Z then r :: l else r' :: insert_by_label r t
  end.

Definition sort_index (df : DataFrame) : DataFrame :=
  mkFrame (columns df) (fold_right insert_by_label [] (rows df)).

(** [df[c] = values]: replaces the column or appends it. *)
Fixpoint set_nth {A : Type} (i : nat) (v : A) (d : A) (l : list A) : list A :=
  match i, l with
  | 0, [] => [v]
  | 0, _ :: t => v :: t
  | S i', [] => d :: set_nth i' v d []
  | S i', x :: t => x :: set_nth i' v d t
  end.

Fixpoint assign_rows (i : nat) (rs : list Row) (values : list cell) : list Row :=
  match rs with
  | [] => []
  | r :: rs' =>
      mkRow (label r) (set_nth i (hd Null values) Null (cells r))
        :: assign_rows i rs' (tl values)
  end.

Definition setcol (df : DataFrame) (c : string) (values : list cell) : DataFrame :=
  match index_of c (columns df) with
  | Some i => mkFrame (columns df) (assign_rows i (rows df) values)
  | None =>
      mkFrame (columns df ++ [c])
        (assign_rows (List.length (columns df)) (rows df) values)
  end.

(** Python's [l[-k:]]: the last [k] elements, all of them when there are
    fewer, and (as [-0] is [0]) the whole list when [k] is [0]. *)
Definition last_n {A : Type} (k : nat) (l : list A) : list A :=
  if k =? 0 then l else skipn (List.length l - k) l.

(** [df.iloc[-k:, :]] *)
Definition iloc_last (k : nat) (df : DataFrame) : DataFrame :=
  mkFrame (columns df) (last_n k (rows df)).

(** [idx[-1]] *)
Definition last_label (idx : list Z) : result Z :=
  match rev idx with
  | z :: _ => Ok z
  | [] => Err (IndexError "index -1 is out of bounds for axis 0 with size 0")
  end.

(** [pd.date_range(start, periods, freq='D')], labels being timestamps in
    nanoseconds.  A timestamp is an int64 other than the least one; a
    range that leaves these bounds is an [OutOfBoundsDatetime], which is
    a [ValueError]. *)
Definition day_ns : Z := 86400000000000.

Definition timestamp_max : Z := 9223372036854775807.

Definition in_bounds (t : Z) : bool := ((- timestamp_max <=? t) && (t <=? timestamp_max))%Z.

Definition date_range (start : Z) (periods : nat) : result (list Z) :=
  let stamps := map (fun k => (start + Z.of_nat k * day_ns)%Z) (seq 0 periods) in
  if forallb in_bounds stamps then Ok stamps
  else Err (ValueError "Out of bounds nanosecond timestamp").

(** ** scikit-learn's [train_test_split(X, y, test_size=p/q, shuffle=False)]

    The test part has [ceil (n * p / q)] rows and the train part the rest;
    without shuffling the train indices are [arange(n_train)] and the test
    indices [arange(n_train, n_train + n_test)].  An empty train part is
    a [ValueError].  The script's [test_size] is the float 0.2: its
    product with a multiple of five rounds to the exact fifth and lies
    strictly between two integers otherwise, so the ceiling is that of
    the exact quotient [n / 5]. *)

Definition ceil_frac (n p q : nat) : nat := (n * p + (q - 1)) / q.

Definition arange {A : Type} (lo hi : nat) (l : list A) : list A :=
  firstn (hi - lo) (skipn lo l).

Definition train_test_split (X : DataFrame) (y : Series) (test_size : nat * nat)
  : result (DataFrame * DataFrame * Series * Series) :=
  let n_samples := List.length (rows X) in
  if negb (List.length y =? n_samples) then
    Err (ValueError "Found input variables with inconsistent numbers of samples")
  else
    let n_test := ceil_frac n_samples (fst test_size) (snd test_size) in
    let n_train := n_samples - n_test in
    if n_train =? 0 then
      Err (ValueError "the resulting train set will be empty")
    else
      Ok (mkFrame (columns X) (arange 0 n_train (rows X)),
          mkFrame (columns X) (arange n_train (n_train + n_test) (rows X)),
          arange 0 n_train y,
          arange n_train (n_train + n_test) y).

(** ** The libraries behind the script *)

Inductive regressor : Type := ExtraTreesRegressor | RandomForestRegressor.

Record estimator : Type :=
  mkEstimator { kind : regressor; n_estimators : nat; random_state : option Z }.

(** The state of a pseudo-random generator. *)
Definition RandomState : Type := Z.

(** What the script asks of scikit-learn, numpy, statsmodels, pandas'
    rolling windows and Python's number formatting.  Every call that can
    raise returns a [result].  A tree ensemble draws its randomness from
    the generator it is given and returns the generator it leaves. *)
Class Library : Type := {
  fitted : Type;
  seed_rng : Z -> RandomState;
  fit_trees : regressor -> nat -> RandomState -> DataFrame -> Series ->
              result (fitted * RandomState);
  predict : fitted -> DataFrame -> result (list float);
  predict_length : forall f X p, predict f X = Ok p -> List.length p = List.length (rows X);
  mean_absolute_error : Series -> list float -> result float;
  mean_squared_error : Series -> list float -> result float;
  r2_score : Series -> list float -> result float;
  np_mean : Series -> result float;
  np_round : nat -> float -> float;
  format : string -> float -> string;
  seasonal_decompose : Series -> nat -> result (list float * list float);
  rolling_mean : nat -> Series -> result Series
}.

(** ** Files, the data cache and the page *)

Inductive File : Type :=
| ParquetFile (table : DataFrame)
| OtherFile (content : string).

Definition FileSystem : Type := string -> option File.

(** [pd.read_parquet(path)] *)
Definition read_parquet (fs : FileSystem) (path : string) : result DataFrame :=
  match fs path with
  | Some (ParquetFile table) => Ok table
  | Some (OtherFile _) => Err (LibraryError "pyarrow: not a parquet file")
  | None => Err (FileNotFoundError path)
  end.

Inductive Trace : Type :=
| Candlestick (x : list Z) (open high low close : Series)
| Scatter (x : list Z) (y : Series) (name color : string) (dash : option string).

Definition Figure : Type := list Trace.

Inductive Element : Type :=
| Title (text : string)
| Subheader (text : string)
| Selectbox (text : string) (options : list cell)
| Radio (text : string) (options : list string)
| Metric (text value : string)
| Dataframe (table : list (Z * string))
| PlotlyChart (fig : Figure).

(** The state a run works in: the files, Streamlit's [cache_data] entry
    of [load_data], numpy's global generator and the elements rendered so
    far. *)
Record State : Type := mkState {
  files : FileSystem;
  cache : option DataFrame;
  np_random : RandomState;
  page : list Element
}.

(** What the user has chosen in the two widgets. *)
Record UI : Type := mkUI { company_index : nat; model_index : nat }.

(** ** The script monad: state, and exceptions that keep the state *)

Definition App (A : Type) : Type := State -> State * result A.

Definition ret {A : Type} (a : A) : App A := fun s => (s, Ok a).

Definition bind {A B : Type} (m : App A) (f : A -> App B) : App B :=
  fun s =>
    match m s with
    | (s1, Ok a) => f a s1
    | (s1, Err e) => (s1, Err e)
    end.

Definition lift {A : Type} (r : result A) : App A := fun s => (s, r).

Definition render (e : Element) : App unit :=
  fun s => (mkState (files s) (cache s) (np_random s) (page s ++ [e]), Ok tt).

Declare Scope app_scope.
Delimit Scope app_scope with app.
Notation "x <- m ;; k" := (bind m (fun x => k))
  (at level 61, m at next level, right associativity) : app_scope.
Notation "m ;; k" := (bind m (fun _ => k))
  (at level 61, right associativity) : app_scope.

(** The same for [result] alone, for the stretches of the script that
    render nothing. *)
Definition rbind {A B : Type} (r : result A) (f : A -> result B) : result B :=
  match r with
  | Ok a => f a
  | Err e => Err e
  end.

Notation "'let?' x ':=' r 'in' k" := (rbind r (fun x => k))
  (at level 10, x name, r at level 100, k at level 200).

Local Open Scope app_scope.

(** ** Streamlit *)

Definition st_title (text : string) : App unit := render (Title text).

Definition st_subheader (text : string) : App unit := render (Subheader text).

Definition st_metric (text value : string) : App unit := render (Metric text value).

Definition st_dataframe (table : list (Z * string)) : App unit := render (Dataframe table).

Definition st_plotly_chart (fig : Figure) : App unit := render (PlotlyChart fig).

(** A selection widget returns the option the user has chosen, the
    first one until they choose; [st.selectbox] over no options returns
    [None]. *)
Definition st_selectbox (text : string) (options : list cell) (chosen : nat) : App cell :=
  render (Selectbox text options) ;;
  ret (nth chosen options (hd Null options)).

Definition st_radio (text : string) (options : list string) (chosen : nat) : App string :=
  render (Radio text options) ;;
  ret (nth chosen options (hd "" options)).

(** [@st.cache_data] around a function of no argument: the value of the
    first call that returned is kept and handed out from then on; a call
    that raises stores nothing. *)
Definition cache_data (f : App DataFrame) : App DataFrame :=
  fun s =>
    match cache s with
    | Some d => (s, Ok d)
    | None =>
        match f s with
        | (s1, Ok d) => (mkState (files s1) (Some d) (np_random s1) (page s1), Ok d)
        | (s1, Err e) => (s1, Err e)
        end
    end.

(** ** The script *)

(** Lines 13-16. *)
Definition load_data : App DataFrame :=
  cache_data (fun s => (s, read_parquet (files s) "data.parquet")).

(** Lines 21-24: [valid_companies] and the filtered [data]. *)
Definition filter_companies (data0 : DataFrame) : result (list cell * DataFrame) :=
  let? names0 := getcol data0 "name" in
  let company_counts := value_counts names0 in
  let valid_companies := at_least 180 company_counts in
  let? names1 := getcol data0 "name" in
  Ok (valid_companies, boolean_index data0 (series_isin names1 valid_companies)).

Definition features : list string :=
  ["open"; "high"; "low"; "volume"; "EMA_10"; "MACD"; "ATR_14"; "Williams_%R"].

Definition target : string := "close".

(** Lines 31-43. *)
Record Split : Type := mkSplit {
  company_data : DataFrame;
  X : DataFrame;
  y : Series;
  X_train : DataFrame;
  X_test : DataFrame;
  y_train : Series;
  y_test : Series
}.

Definition split_company (data : DataFrame) (selected_company : cell) : result Split :=
  let? names := getcol data "name" in
  let company := sort_index (boolean_index data (series_eq names selected_company)) in
  let? X0 := getcols company features in
  let? y0 := getcol company target in
  let? parts := train_test_split X0 y0 (1, 5) in
  let '(Xtr, Xte, ytr, yte) := parts in
  Ok (mkSplit company X0 y0 Xtr Xte ytr yte).

(** Lines 48-51: an [if]/[elif] with no [else]; under any other choice
    the name [model] is unbound when line 54 reads it. *)
Definition select_model (model_choice : string) : result estimator :=
  if String.eqb model_choice "Extra Trees" then
    Ok (mkEstimator ExtraTreesRegressor 100 (Some 42%Z))
  else if String.eqb model_choice "Random Forest" then
    Ok (mkEstimator RandomForestRegressor 100 (Some 42%Z))
  else Err (NameError "model").

(** Line 62. *)
Definition estimated_accuracy (mae mean : float) : float := (1 - mae / mean)%float.

(** [pd.DataFrame({"Day": range(1, 16), "Forecasted Close": values})]:
    columns of different lengths are a [ValueError]. *)
Definition days : list Z := map Z.of_nat (seq 1 15).

Definition make_forecast_df (values : list float) : result (list (Z * float)) :=
  if List.length values =? List.length days then Ok (combine days values)
  else Err (ValueError "All arrays must be of the same length").

Section Script.

Context {L : Library}.

(** [model.fit(X, y)]: an estimator built with [random_state=seed] draws
    from a generator of its own made from the seed; one built with
    [random_state=None] draws from numpy's global generator and advances
    it. *)
Definition fit (m : estimator) (X : DataFrame) (y : Series) : App fitted :=
  fun s =>
    match random_state m with
    | Some sd =>
        match fit_trees (kind m) (n_estimators m) (seed_rng sd) X y with
        | Ok (f, _) => (s, Ok f)
        | Err e => (s, Err e)
        end
    | None =>
        match fit_trees (kind m) (n_estimators m) (np_random s) X y with
        | Ok (f, g) => (mkState (files s) (cache s) g (page s), Ok f)
        | Err e => (s, Err e)
        end
    end.

(** Lines 57-62. *)
Record Scores : Type := mkScores {
  y_pred : list float;
  mae : float;
  mse : float;
  rmse : float;
  r2 : float;
  accuracy : float
}.

Definition score (fm : fitted) (sp : Split) : result Scores :=
  let? pred := predict fm (X_test sp) in
  let? mae0 := mean_absolute_error (y_test sp) pred in
  let? mse0 := mean_squared_error (y_test sp) pred in
  let rmse0 := PrimFloat.sqrt mse0 in
  let? r20 := r2_score (y_test sp) pred in
  let? mean := np_mean (y_test sp) in
  Ok (mkScores pred mae0 mse0 rmse0 r20 (estimated_accuracy mae0 mean)).

(** Lines 72-77. *)
Record Forecast : Type := mkForecast {
  future_X : DataFrame;
  future_forecast : list float;
  forecast_df : list (Z * float)
}.

Definition forecast (fm : fitted) (sp : Split) : result Forecast :=
  let fX := iloc_last 15 (X_test sp) in
  let? raw := predict fm fX in
  let ff := map (np_round 2) raw in
  let? df := make_forecast_df ff in
  Ok (mkForecast fX ff df).

(** [forecast_df.style.format({"Forecasted Close": "{:.2f}"})] *)
Definition styled (df : list (Z * float)) : list (Z * string) :=
  map (fun r => (fst r, format ".2f" (snd r))) df.

(** Lines 83-87. *)
Definition candlestick_fig (cd : DataFrame) : result Figure :=
  let? o := getcol cd "open" in
  let? h := getcol cd "high" in
  let? l := getcol cd "low" in
  let? c := getcol cd "close" in
  Ok [Candlestick (index cd) o h l c].

(** Lines 92-96. *)
Definition forecast_fig (sp : Split) (sc : Scores) (fc : Forecast) : result Figure :=
  let idx := index (company_data sp) in
  let x_test := last_n (List.length (y_test sp)) idx in
  let actual := Scatter x_test (y_test sp) "Actual Close Price" "blue" None in
  let predicted := Scatter x_test (map Num (y_pred sc)) "Predicted Close Price" "green" None in
  let? start := last_label idx in
  let? future := date_range start 16 in
  Ok [actual; predicted;
      Scatter (x_test ++ tl future)
              (map Num (last_n 1 (y_pred sc) ++ future_forecast fc))
              "Forecasted Close Price" "red" (Some "dot")].

(** Lines 101-104. *)
Definition seasonal_fig (cd : DataFrame) : result Figure :=
  let? close := getcol cd target in
  let? dec := seasonal_decompose close 30 in
  Ok [Scatter (index cd) (map Num (fst dec)) "Trend" "purple" None;
      Scatter (index cd) (map Num (snd dec)) "Seasonality" "orange" None].

(** Lines 109-112. *)
Definition metrics_fig (cd : DataFrame) : result Figure :=
  let? ema := getcol cd "EMA_10" in
  let? macd := getcol cd "MACD" in
  let? atr := getcol cd "ATR_14" in
  Ok [Scatter (index cd) ema "EMA 10" "blue" None;
      Scatter (index cd) macd "MACD" "red" None;
      Scatter (index cd) atr "ATR 14" "green" None].

(** Lines 117-122: the two moving averages become columns of
    [company_data]; the value is that frame and the figure. *)
Definition moving_avg_fig (cd : DataFrame) : result (DataFrame * Figure) :=
  let? close50 := getcol cd "close" in
  let? sma50 := rolling_mean 50 close50 in
  let cd1 := setcol cd "SMA_50" sma50 in
  let? close200 := getcol cd1 "close" in
  let? sma200 := rolling_mean 200 close200 in
  let cd2 := setcol cd1 "SMA_200" sma200 in
  let? c := getcol cd2 "close" in
  let? s50 := getcol cd2 "SMA_50" in
  let? s200 := getcol cd2 "SMA_200" in
  Ok (cd2,
      [Scatter (index cd2) c "Close Price" "black" None;
       Scatter (index cd2) s50 "50-day SMA" "blue" None;
       Scatter (index cd2) s200 "200-day SMA" "red" None]).

(** The names bound when the script ends. *)
Record Env : Type := mkEnv {
  valid_companies : list cell;
  data : DataFrame;
  selected_company : cell;
  parts : Split;
  model_choice : string;
  model : estimator;
  fitted_model : fitted;
  scores : Scores;
  forecasted : Forecast;
  final_company_data : DataFrame
}.

(** The script, top to bottom. *)
Definition app_py (ui : UI) : App Env :=
  data0 <- load_data ;;
  vd <- lift (filter_companies data0) ;;
  st_title "Stock Price Forecasting (Extra Trees & Random Forest)" ;;
  selected <- st_selectbox "Select a company:" (fst vd) (company_index ui) ;;
  sp <- lift (split_company (snd vd) selected) ;;
  choice <- st_radio "Select Model:" ["Extra Trees"; "Random Forest"] (model_index ui) ;;
  m <- lift (select_model choice) ;;
  fm <- fit m (X_train sp) (y_train sp) ;;
  sc <- lift (score fm sp) ;;
  st_subheader "Model Performance" ;;
  st_metric "Mean Absolute Error (MAE)" (format ".2f" (mae sc)) ;;
  st_metric "Root Mean Squared Error (RMSE)" (format ".2f" (rmse sc)) ;;
  st_metric "R² Score" (format ".2f" (r2 sc)) ;;
  st_metric "Estimated Accuracy" (format ".2%" (accuracy sc)) ;;
  fc <- lift (forecast fm sp) ;;
  st_subheader "15-Day Forecast" ;;
  st_dataframe (styled (forecast_df fc)) ;;
  st_subheader "Candlestick Chart" ;;
  candlestick <- lift (candlestick_fig (company_data sp)) ;;
  st_plotly_chart candlestick ;;
  st_subheader "Forecasted Prices" ;;
  forecast_plot <- lift (forecast_fig sp sc fc) ;;
  st_plotly_chart forecast_plot ;;
  st_subheader "Seasonal Trends" ;;
  seasonal <- lift (seasonal_fig (company_data sp)) ;;
  st_plotly_chart seasonal ;;
  st_subheader "Financial Metrics" ;;
  metrics <- lift (metrics_fig (company_data sp)) ;;
  st_plotly_chart metrics ;;
  st_subheader "Moving Averages" ;;
  ma <- lift (moving_avg_fig (company_data sp)) ;;
  st_plotly_chart (snd ma) ;;
  ret (mkEnv (fst vd) (snd vd) selected sp choice m fm sc fc (fst ma)).

(** The page of a completed run, given its five figures. *)
Definition complete_page (env : Env) (f1 f2 f3 f4 f5 : Figure) : list Element :=
  [ Title "Stock Price Forecasting (Extra Trees & Random Forest)";
    Selectbox "Select a company:" (valid_companies env);
    Radio "Select Model:" ["Extra Trees"; "Random Forest"];
    Subheader "Model Performance";
    Metric "Mean Absolute Error (MAE)" (format ".2f" (mae (scores env)));
    Metric "Root Mean Squared Error (RMSE)" (format ".2f" (rmse (scores env)));
    Metric "R² Score" (format ".2f" (r2 (scores env)));
    Metric "Estimated Accuracy" (format ".2%" (accuracy (scores env)));
    Subheader "15-Day Forecast";
    Dataframe (styled (forecast_df (forecasted env)));
    Subheader "Candlestick Chart"; PlotlyChart f1;
    Subheader "Forecasted Prices"; PlotlyChart f2;
    Subheader "Seasonal Trends"; PlotlyChart f3;
    Subheader "Financial Metrics"; PlotlyChart f4;
    Subheader "Moving Averages"; PlotlyChart f5 ].

End Script.

(** ** A small library and a small table, to run the script on

    The regressor of this instance predicts the mean of its training
    targets and, as scikit-learn's input validation does, refuses a
    target with a missing value; the decomposition refuses, as
    statsmodels does, a series with a missing value or shorter than two
    periods.  Rounding keeps the value and formatting returns the format
    string: the runs below do not look at the digits. *)

Definition float_of (c : cell) : float :=
  match c with Num x => x | _ => nan end.

Definition fsum (l : list float) : float := fold_left PrimFloat.add l 0%float.

Definition fcount {A : Type} (l : list A) : float :=
  fold_left (fun acc _ => (acc + 1)%float) l 0%float.

Definition fmean (l : list float) : float := (fsum l / fcount l)%float.

Definition errors (f : float -> float) (truth : Series) (pred : list float) : list float :=
  map (fun tp => f (float_of (fst tp) - snd tp)%float) (combine truth pred).

Definition mean_fit (k : regressor) (n : nat) (g : RandomState) (X : DataFrame) (y : Series)
  : result (float * RandomState) :=
  if existsb isna y then Err (ValueError "Input y contains NaN.")
  else Ok (fmean (map float_of y), (g + 1)%Z).

Definition mean_predict (f : float) (X : DataFrame) : result (list float) :=
  Ok (map (fun _ => f) (rows X)).

Definition mean_r2 (truth : Series) (pred : list float) : float :=
  let m := fmean (map float_of truth) in
  (1 - fsum (errors (fun e => e * e) truth pred)
       / fsum (map (fun c => (float_of c - m) * (float_of c - m)) truth))%float.

(** A metric of scikit-learn validates its two arrays first. *)
Definition checked (metric : Series -> list float -> float) (truth : Series) (pred : list float)
  : result float :=
  if existsb isna truth || existsb PrimFloat.is_nan pred then
    Err (ValueError "Input contains NaN.")
  else Ok (metric truth pred).

Definition simple_decompose (s : Series) (period : nat) : result (list float * list float) :=
  if List.length s <? 2 * period then
    Err (ValueError "x must have 2 complete cycles")
  else if existsb isna s then
    Err (ValueError "This function does not handle missing values")
  else Ok (map float_of s, map (fun _ => 0%float) s).

Definition simple_rolling_mean (w : nat) (s : Series) : result Series :=
  Ok (map (fun i =>
             if i + 1 <? w then Num nan
             else Num (fmean (map float_of (firstn w (skipn (i + 1 - w) s)))))
          (seq 0 (List.length s))).

Definition mean_library : Library := {|
  fitted := float;
  seed_rng := fun z => z;
  fit_trees := mean_fit;
  predict := mean_predict;
  predict_length := fun f X p H =>
    match H in (_ = r) return (match r with Ok q => List.length q = List.length (rows X) | Err _ => True end) with
    | eq_refl => length_map (fun _ => f) (rows X)
    end;
  mean_absolute_error := checked (fun t p => fmean (errors PrimFloat.abs t p));
  mean_squared_error := checked (fun t p => fmean (errors (fun e => e * e)%float t p));
  r2_score := checked mean_r2;
  np_mean := fun s => Ok (fmean (map float_of s));
  np_round := fun _ x => x;
  format := fun spec _ => spec;
  seasonal_decompose := simple_decompose;
  rolling_mean := simple_rolling_mean
|}.

Fixpoint float_of_nat (n : nat) : float :=
  match n with
  | 0 => 0%float
  | S k => (float_of_nat k + 1)%float
  end.

Definition sample_columns : list string :=
  ["name"; "open"; "high"; "low"; "close"; "volume";
   "EMA_10"; "MACD"; "ATR_14"; "Williams_%R"].

(** Day [i] of company [name]: prices around [100 + i]. *)
Definition sample_row (name : cell) (i : nat) : Row :=
  let base := (100 + float_of_nat i)%float in
  mkRow (Z.of_nat i)
    [name; Num base; Num (base + 2); Num (base - 1); Num (base + 1); Num 1000;
     Num base; Num 0.5; Num 3; Num (-20)].

(** 200 days of ACME, newest first, 5 days of TINY and a row with no
    name. *)
Definition sample_table : DataFrame :=
  mkFrame sample_columns
    (map (sample_row (Str "ACME")) (rev (seq 0 200))
     ++ map (sample_row (Str "TINY")) (seq 0 5)
     ++ [sample_row Null 7]).

(** What line 24 keeps of it. *)
Definition sample_filtered : DataFrame :=
  mkFrame sample_columns (map (sample_row (Str "ACME")) (rev (seq 0 200))).

(** The same table with the closing prices of day 0 missing. *)
Definition gap_row (r : Row) : Row :=
  if (label r =? 0)%Z then mkRow (label r) (set_nth 4 (Num nan) Null (cells r)) else r.

Definition gap_table : DataFrame :=
  mkFrame sample_columns (map gap_row (rows sample_table)).

(** The same table without its [volume] column. *)
Definition narrow_table : DataFrame :=
  mkFrame (filter (fun c => negb (String.eqb c "volume")) sample_columns)
    (map (project [0; 1; 2; 3; 4; 6; 7; 8; 9]) (rows sample_table)).

Definition disk (table : DataFrame) : FileSystem :=
  fun path => if String.eqb path "data.parquet" then Some (ParquetFile table) else None.

Definition fresh (table : DataFrame) (g : RandomState) : State :=
  mkState (disk table) None g [].




(** ** Vocabulary of the statements *)

(** The number of cells of a series that [==] finds equal to [k]. *)
Definition occ (k : cell) (s : Series) : nat :=
  List.length (filter (fun c => cell_eqb c k) s).

(** The table [load_data] hands to the script in a state. *)
Definition loaded (s : State) : result DataFrame :=
  match cache s with
  | Some d => Ok d
  | None => read_parquet (files s) "data.parquet"
  end.

Definition required_columns : list string := features ++ [target; "name"].

(** The elements that show a result: a metric, the forecast table, a
    chart. *)
Definition shows_result (e : Element) : bool :=
  match e with
  | Metric _ _ | Dataframe _ | PlotlyChart _ => true
  | _ => false
  end.

Definition is_metric (e : Element) : bool :=
  match e with Metric _ _ => true | _ => false end.

Definition is_chart (e : Element) : bool :=
  match e with PlotlyChart _ => true | _ => false end.

Definition trace_name (t : Trace) : string :=
  match t with
  | Candlestick _ _ _ _ _ => "candlestick"
  | Scatter _ _ name _ _ => name
  end.

(** A chart is recognised by the names of its traces. *)
Definition chart_of (names : list string) (e : Element) : bool :=
  match e with
  | PlotlyChart fig =>
      if list_eq_dec string_dec (map trace_name fig) names then true else false
  | _ => false
  end.

Definition candlestick_view : Element -> bool := chart_of ["candlestick"].

Definition forecast_view : Element -> bool :=
  chart_of ["Actual Close Price"; "Predicted Close Price"; "Forecasted Close Price"].

Definition seasonal_view : Element -> bool := chart_of ["Trend"; "Seasonality"].

Definition indicator_view : Element -> bool := chart_of ["EMA 10"; "MACD"; "ATR 14"].

Definition moving_average_view : Element -> bool :=
  chart_of ["Close Price"; "50-day SMA"; "200-day SMA"].

Definition count (p : Element -> bool) (elements : list Element) : nat :=
  List.length (filter p elements).

Definition metric_labels (elements : list Element) : list string :=
  flat_map (fun e => match e with Metric text _ => [text] | _ => [] end) elements.

(** What an element is, apart from the data it shows: its kind, its
    text and, for a chart, the names of its traces. *)
Inductive Tag : Type :=
| TagTitle (text : string)
| TagSelectbox (text : string)
| TagRadio (text : string)
| TagSubheader (text : string)
| TagMetric (text : string)
| TagTable
| TagChart (traces : list string).

Definition tag_of (e : Element) : Tag :=
  match e with
  | Title text => TagTitle text
  | Subheader text => TagSubheader text
  | Selectbox text _ => TagSelectbox text
  | Radio text _ => TagRadio text
  | Metric text _ => TagMetric text
  | Dataframe _ => TagTable
  | PlotlyChart fig => TagChart (map trace_name fig)
  end.

(** The recognisers of charts, on tags. *)
Definition chart_tag (names : list string) (t : Tag) : bool :=
  match t with
  | TagChart traces => if list_eq_dec string_dec traces names then true else false
  | _ => false
  end.

Definition any_chart_tag (t : Tag) : bool :=
  match t with TagChart _ => true | _ => false end.

(** The page of the script, top to bottom (lines 27-123). *)
Definition page_shape : list Tag :=
  [ TagTitle "Stock Price Forecasting (Extra Trees & Random Forest)";
    TagSelectbox "Select a company:";
    TagRadio "Select Model:";
    TagSubheader "Model Performance";
    TagMetric "Mean Absolute Error (MAE)";
    TagMetric "Root Mean Squared Error (RMSE)";
    TagMetric "R² Score";
    TagMetric "Estimated Accuracy";
    TagSubheader "15-Day Forecast";
    TagTable;
    TagSubheader "Candlestick Chart";
    TagChart ["candlestick"];
    TagSubheader "Forecasted Prices";
    TagChart ["Actual Close Price"; "Predicted Close Price"; "Forecasted Close Price"];
    TagSubheader "Seasonal Trends";
    TagChart ["Trend"; "Seasonality"];
    TagSubheader "Financial Metrics";
    TagChart ["EMA 10"; "MACD"; "ATR 14"];
    TagSubheader "Moving Averages";
    TagChart ["Close Price"; "50-day SMA"; "200-day SMA"] ].

(** *** Notions of the proofs *)

(** IEEE equality identifies the two zeros and nothing else. *)
Definition sf_key (x : spec_float) : spec_float :=
  match x with
  | S754_zero _ => S754_zero false
  | _ => x
  end.

(** The count filed under the first key equal to [k]. *)
Definition count_for (k : cell) (acc : list (cell * nat)) : nat :=
  match find (fun e => cell_eqb (fst e) k) acc with
  | Some e => snd e
  | None => 0
  end.

Fixpoint distinct_keys (acc : list (cell * nat)) : Prop :=
  match acc with
  | [] => True
  | e :: t => (forall e', In e' t -> cell_eqb (fst e) (fst e') = false) /\ distinct_keys t
  end.

Definition present_keys (acc : list (cell * nat)) : Prop :=
  forall e, In e acc -> isna (fst e) = false /\ 1 <= snd e.

(** An action that only renders: it appends the same elements and has
    the same outcome in every state. *)
Definition writes {A : Type} (m : App A) (out : list Element) (r : result A) : Prop :=
  forall s, m s = (mkState (files s) (cache s) (np_random s) (page s ++ out), r).

Definition writer {A : Type} (m : App A) : Prop := exists out r, writes m out r.

(** An action that renders an initial part of the tags [sh], in every
    state the same, and all of them exactly when it raises nothing. *)
Definition renders_prefix {A : Type} (m : App A) (sh : list Tag) : Prop :=
  exists out r rest,
    writes m out r /\ sh = map tag_of out ++ rest /\ (rest = [] <-> is_ok r = true).

(** * Properties *)

(** ** Lists *)

Lemma In_skipn {A : Type} (n : nat) (l : list A) (x : A) : In x (skipn n l) -> In x l.
Proof.
  intros H. rewrite <- (firstn_skipn n l). apply in_or_app. right. assumption.
Qed.

Lemma last_n_skipn {A : Type} (k : nat) (l : list A) :
  1 <= k -> last_n k l = skipn (List.length l - k) l.
Proof. unfold last_n. destruct k; [lia | reflexivity]. Qed.


(** ** Cells: [==] is an equivalence on the values that are not missing *)

Ltac sf_case :=
  split;
  [ let H := fresh in intro H;
    first [ discriminate H | split; [discriminate | reflexivity] ]
  | let Hn := fresh in let Hk := fresh in
    intros [Hn Hk];
    first [ discriminate Hk | exfalso; apply Hn; reflexivity | reflexivity
          | injection Hk; intros; subst; lia ] ].

Lemma SFeqb_key (a b : spec_float) :
  SFeqb a b = true <-> a <> S754_nan /\ sf_key a = sf_key b.
Proof.
  unfold SFeqb.
  destruct a as [sa|sa| |sa ma ea], b as [sb|sb| |sb mb eb];
    try destruct sa; try destruct sb; simpl; try (sf_case; fail).
  - destruct (Z.compare_spec ea eb) as [He|He|He]; try (sf_case; fail).
    subst eb. change (Pcompare ma mb Eq) with (Pos.compare ma mb).
    destruct (Pos.compare_spec ma mb) as [Hm|Hm|Hm]; simpl; subst; sf_case.
  - destruct (Z.compare_spec ea eb) as [He|He|He]; try (sf_case; fail).
    subst eb. change (Pcompare ma mb Eq) with (Pos.compare ma mb).
    destruct (Pos.compare_spec ma mb) as [Hm|Hm|Hm]; simpl; subst; sf_case.
Qed.

Lemma sf_key_nan (a : spec_float) : sf_key a = S754_nan -> a = S754_nan.
Proof. destruct a; simpl; congruence. Qed.

Lemma float_eqb_sym (x y : float) : PrimFloat.eqb x y = true -> PrimFloat.eqb y x = true.
Proof.
  rewrite !eqb_spec. intros H. apply SFeqb_key in H. destruct H as [Hn Hk].
  apply SFeqb_key. split; [| congruence].
  intros Hy. rewrite Hy in Hk. simpl in Hk. apply sf_key_nan in Hk. contradiction.
Qed.

Lemma float_eqb_trans (x y z : float) :
  PrimFloat.eqb x y = true -> PrimFloat.eqb y z = true -> PrimFloat.eqb x z = true.
Proof.
  rewrite !eqb_spec. intros H1 H2. apply SFeqb_key in H1, H2. apply SFeqb_key.
  destruct H1, H2. split; congruence.
Qed.

Lemma float_eqb_left_refl (x y : float) : PrimFloat.eqb x y = true -> PrimFloat.eqb x x = true.
Proof.
  rewrite !eqb_spec. intros H. apply SFeqb_key in H. apply SFeqb_key.
  destruct H. split; [assumption | reflexivity].
Qed.

Lemma cell_eqb_sym (a b : cell) : cell_eqb a b = true -> cell_eqb b a = true.
Proof.
  destruct a, b; simpl; try discriminate.
  - rewrite String.eqb_sym. trivial.
  - apply float_eqb_sym.
Qed.

Lemma cell_eqb_trans (a b c : cell) :
  cell_eqb a b = true -> cell_eqb b c = true -> cell_eqb a c = true.
Proof.
  destruct a, b, c; simpl; try discriminate.
  - intros H1 H2. apply String.eqb_eq in H1, H2. apply String.eqb_eq. congruence.
  - apply float_eqb_trans.
Qed.

Lemma cell_eqb_refl (a : cell) : isna a = false -> cell_eqb a a = true.
Proof.
  destruct a; simpl; try discriminate.
  - intros _. apply String.eqb_refl.
  - unfold PrimFloat.is_nan. intros H. apply negb_false_iff in H. exact H.
Qed.

Lemma cell_eqb_notna (a b : cell) : cell_eqb a b = true -> isna a = false /\ isna b = false.
Proof.
  destruct a, b; simpl; try discriminate; auto.
  intros H. unfold PrimFloat.is_nan. split; apply negb_false_iff.
  - eapply float_eqb_left_refl; eassumption.
  - apply float_eqb_sym in H. eapply float_eqb_left_refl; eassumption.
Qed.

Lemma cell_eqb_Str (s : string) (c : cell) : cell_eqb (Str s) c = true <-> c = Str s.
Proof.
  destruct c; simpl; split; try discriminate.
  - intros H. apply String.eqb_eq in H. congruence.
  - intros H. injection H as ->. apply String.eqb_refl.
Qed.

(** [==] cannot tell apart two values it finds equal. *)
Lemma cell_eqb_congr (a b c : cell) : cell_eqb a b = true -> cell_eqb c a = cell_eqb c b.
Proof.
  intros H. destruct (cell_eqb c a) eqn:Ha.
  - symmetry. eapply cell_eqb_trans; eassumption.
  - destruct (cell_eqb c b) eqn:Hb; [| reflexivity].
    rewrite <- Ha. eapply cell_eqb_trans; [eassumption |]. apply cell_eqb_sym. assumption.
Qed.

Lemma occ_congr (a b : cell) (s : Series) : cell_eqb a b = true -> occ a s = occ b s.
Proof.
  intros H. unfold occ. f_equal. apply filter_ext. intros c. apply cell_eqb_congr. assumption.
Qed.

Lemma occ_cons (k c : cell) (s : Series) :
  occ k (c :: s) = (if cell_eqb c k then 1 else 0) + occ k s.
Proof. unfold occ. simpl. destruct (cell_eqb c k); reflexivity. Qed.

Lemma occ_pos (k : cell) (s : Series) :
  1 <= occ k s -> exists c, In c s /\ cell_eqb c k = true.
Proof.
  unfold occ. intros H.
  destruct (filter (fun c => cell_eqb c k) s) as [| c t] eqn:E; [simpl in H; lia |].
  assert (Hin : In c (filter (fun c => cell_eqb c k) s)) by (rewrite E; left; reflexivity).
  apply filter_In in Hin. exists c. exact Hin.
Qed.

(** ** Line 62: the division *)

(** With a zero mean the quotient is infinite or NaN, and so is the
    accuracy. *)
Lemma div_by_zero_not_finite (mae mean : float) :
  PrimFloat.is_zero mean = true -> PrimFloat.is_finite (1 - mae / mean) = false.
Proof.
  unfold PrimFloat.is_zero, PrimFloat.is_finite, PrimFloat.is_nan, PrimFloat.is_infinity.
  rewrite !eqb_spec, abs_spec, sub_spec, div_spec.
  change (Prim2SF zero) with (S754_zero false).
  change (Prim2SF infinity) with (S754_infinity false).
  change (Prim2SF 1) with (S754_finite false 4503599627370496 (-52)).
  intros H. apply SFeqb_key in H. destruct H as [_ H].
  destruct (Prim2SF mean) as [sm | sm | | sm mm em]; simpl in H; try discriminate.
  destruct (Prim2SF mae) as [sa | sa | | sa ma ea]; simpl; try reflexivity;
    destruct (xorb _ _); reflexivity.
Qed.

Lemma cell_eqb_comm (a b : cell) : cell_eqb a b = cell_eqb b a.
Proof.
  destruct (cell_eqb a b) eqn:H1.
  - symmetry. apply cell_eqb_sym. assumption.
  - destruct (cell_eqb b a) eqn:H2; [| reflexivity].
    apply cell_eqb_sym in H2. congruence.
Qed.

(** ** [value_counts] counts *)

Lemma count_for_cons (k : cell) (e : cell * nat) (acc : list (cell * nat)) :
  count_for k (e :: acc) = if cell_eqb (fst e) k then snd e else count_for k acc.
Proof. unfold count_for. simpl. destruct (cell_eqb (fst e) k); reflexivity. Qed.

Lemma count_for_incr (x k : cell) (acc : list (cell * nat)) :
  count_for k (vc_incr x acc) = (if cell_eqb x k then 1 else 0) + count_for k acc.
Proof.
  induction acc as [| [k' n] t IH]; simpl.
  - rewrite count_for_cons. simpl. destruct (cell_eqb x k); reflexivity.
  - destruct (cell_eqb k' x) eqn:Hx; rewrite !count_for_cons; simpl.
    + assert (Hk : cell_eqb k' k = cell_eqb x k).
      { rewrite (cell_eqb_comm k' k), (cell_eqb_comm x k).
        apply cell_eqb_congr. assumption. }
      rewrite Hk. destruct (cell_eqb x k); reflexivity.
    + destruct (cell_eqb k' k) eqn:Hk.
      * assert (Hxk : cell_eqb x k = false).
        { destruct (cell_eqb x k) eqn:E; [| reflexivity].
          symmetry. rewrite <- Hx. eapply cell_eqb_trans; [eassumption |].
          apply cell_eqb_sym. assumption. }
        rewrite Hxk. reflexivity.
      * exact IH.
Qed.

Lemma count_for_fold (k : cell) (s : Series) (acc : list (cell * nat)) :
  count_for k (fold_left vc_step s acc) = count_for k acc + occ k s.
Proof.
  revert acc. induction s as [| c s IH]; intros acc; simpl.
  - unfold occ. simpl. lia.
  - rewrite IH, occ_cons. unfold vc_step. destruct (isna c) eqn:Hna.
    + destruct (cell_eqb c k) eqn:E; [| reflexivity].
      apply cell_eqb_notna in E. destruct E. congruence.
    + rewrite count_for_incr. lia.
Qed.

Lemma vc_incr_In (x : cell) (acc : list (cell * nat)) (e : cell * nat) :
  In e (vc_incr x acc) -> fst e = x \/ exists e', In e' acc /\ fst e' = fst e.
Proof.
  induction acc as [| [k' n] t IH]; simpl.
  - intros [<- | []]. left. reflexivity.
  - destruct (cell_eqb k' x).
    + intros [<- | H].
      * right. exists (k', n). split; [left; reflexivity | reflexivity].
      * right. exists e. split; [right; assumption | reflexivity].
    + intros [<- | H].
      * right. exists (k', n). split; [left; reflexivity | reflexivity].
      * destruct (IH H) as [Hx | (e' & Hin & He)]; [left; assumption |].
        right. exists e'. split; [right; assumption | assumption].
Qed.

Lemma vc_incr_distinct (x : cell) (acc : list (cell * nat)) :
  distinct_keys acc -> distinct_keys (vc_incr x acc).
Proof.
  induction acc as [| [k' n] t IH]; simpl.
  - intros _. split; [intros e' [] | exact I].
  - intros [Hhd Htl]. destruct (cell_eqb k' x) eqn:Hx; simpl.
    + split; assumption.
    + split; [| apply IH; assumption].
      intros e' Hin. apply vc_incr_In in Hin.
      destruct Hin as [-> | (e'' & Hin & <-)]; [assumption |].
      apply (Hhd e'' Hin).
Qed.

Lemma vc_incr_present (x : cell) (acc : list (cell * nat)) :
  isna x = false -> present_keys acc -> present_keys (vc_incr x acc).
Proof.
  intros Hx. induction acc as [| [k' n] t IH]; simpl; intros Hacc e Hin.
  - destruct Hin as [<- | []]. simpl. split; [assumption | lia].
  - assert (Hhd := Hacc (k', n) (or_introl eq_refl)). simpl in Hhd.
    assert (Htl : present_keys t) by (intros e' He'; apply Hacc; right; assumption).
    destruct (cell_eqb k' x).
    + destruct Hin as [<- | Hin]; simpl; [split; [tauto | lia] | apply Htl; assumption].
    + destruct Hin as [<- | Hin]; simpl; [assumption | apply IH; assumption].
Qed.

Lemma fold_vc_good (s : Series) (acc : list (cell * nat)) :
  distinct_keys acc -> present_keys acc ->
  distinct_keys (fold_left vc_step s acc) /\ present_keys (fold_left vc_step s acc).
Proof.
  revert acc. induction s as [| c s IH]; intros acc Hd Hp; simpl; [split; assumption |].
  apply IH; unfold vc_step; destruct (isna c) eqn:Hna; try assumption.
  - apply vc_incr_distinct. assumption.
  - apply vc_incr_present; assumption.
Qed.

Lemma distinct_count_for (acc : list (cell * nat)) (k : cell) (n : nat) :
  distinct_keys acc -> present_keys acc -> In (k, n) acc -> count_for k acc = n.
Proof.
  induction acc as [| e t IH]; simpl; [intros _ _ [] |].
  intros [Hhd Htl] Hp [-> | Hin]; rewrite count_for_cons.
  - simpl. rewrite cell_eqb_refl; [reflexivity |].
    apply (Hp (k, n)). left. reflexivity.
  - assert (Hne := Hhd (k, n) Hin). simpl in Hne. rewrite Hne. apply IH; try assumption.
    intros e' He'. apply Hp. right. assumption.
Qed.

Lemma count_for_In (acc : list (cell * nat)) (k : cell) :
  1 <= count_for k acc ->
  exists k', In (k', count_for k acc) acc /\ cell_eqb k' k = true.
Proof.
  unfold count_for. destruct (find _ acc) as [[k' n] |] eqn:F; [| lia].
  intros _. apply find_some in F. destruct F as [Hin Heq]. exists k'. auto.
Qed.

Lemma insert_by_count_In (e x : cell * nat) (l : list (cell * nat)) :
  In x (insert_by_count e l) <-> x = e \/ In x l.
Proof.
  induction l as [| e' t IH]; simpl.
  - intuition congruence.
  - destruct (snd e' <=? snd e); simpl; [intuition congruence |].
    rewrite IH. intuition congruence.
Qed.

Lemma sort_by_count_In (x : cell * nat) (l : list (cell * nat)) :
  In x (sort_by_count l) <-> In x l.
Proof.
  unfold sort_by_count. induction l as [| e t IH]; simpl; [tauto |].
  rewrite insert_by_count_In, IH. intuition congruence.
Qed.

(** An entry of [value_counts] is a value that is not missing, with the
    number of its occurrences. *)
Lemma value_counts_sound (s : Series) (k : cell) (n : nat) :
  In (k, n) (value_counts s) -> isna k = false /\ n = occ k s /\ 1 <= n.
Proof.
  unfold value_counts. rewrite sort_by_count_In. intros Hin.
  destruct (fold_vc_good s []) as [Hd Hp]; [exact I | intros e [] |].
  destruct (Hp _ Hin) as [Hna Hn]. simpl in Hna, Hn.
  repeat split; try assumption.
  rewrite <- (distinct_count_for _ _ _ Hd Hp Hin), count_for_fold. reflexivity.
Qed.

(** Every value that occurs is counted, under a key equal to it. *)
Lemma value_counts_complete (s : Series) (k : cell) :
  1 <= occ k s ->
  exists k', In (k', occ k s) (value_counts s) /\ cell_eqb k' k = true.
Proof.
  intros H.
  assert (E : count_for k (fold_left vc_step s []) = occ k s)
    by (rewrite count_for_fold; reflexivity).
  destruct (count_for_In (fold_left vc_step s []) k) as (k' & Hin & Heq); [lia |].
  exists k'. split; [| assumption].
  unfold value_counts. rewrite sort_by_count_In, <- E. assumption.
Qed.

Lemma at_least_In (m : nat) (counts : list (cell * nat)) (k : cell) :
  In k (at_least m counts) <-> exists n, In (k, n) counts /\ m <= n.
Proof.
  unfold at_least. rewrite in_map_iff. split.
  - intros ([k' n] & <- & Hin). apply filter_In in Hin. destruct Hin as [Hin Hle].
    exists n. split; [assumption | apply Nat.leb_le; assumption].
  - intros (n & Hin & Hle). exists (k, n). split; [reflexivity |].
    apply filter_In. split; [assumption | apply Nat.leb_le; assumption].
Qed.

(** A value passes [isin(valid_companies)] exactly when it occurs at least
    [m] times. *)
Lemma isin_at_least (m : nat) (s : Series) (k : cell) :
  1 <= m -> (isin (at_least m (value_counts s)) k = true <-> m <= occ k s).
Proof.
  intros Hm. unfold isin. rewrite existsb_exists. split.
  - intros (k' & Hin & Heq). apply at_least_In in Hin. destruct Hin as (n & Hin & Hle).
    apply value_counts_sound in Hin. destruct Hin as (_ & -> & _).
    rewrite (occ_congr k k' s Heq). assumption.
  - intros Hle. destruct (value_counts_complete s k) as (k' & Hin & Heq); [lia |].
    exists k'. split; [| apply cell_eqb_sym; assumption].
    apply at_least_In. exists (occ k s). split; assumption.
Qed.

Lemma In_at_least (m : nat) (s : Series) (k : cell) :
  In k (at_least m (value_counts s)) -> isna k = false /\ m <= occ k s.
Proof.
  intros Hin. apply at_least_In in Hin. destruct Hin as (n & Hin & Hle).
  apply value_counts_sound in Hin. destruct Hin as (Hna & -> & _). auto.
Qed.

Lemma In_at_least_Str (m : nat) (s : Series) (name : string) :
  1 <= m -> (In (Str name) (at_least m (value_counts s)) <-> m <= occ (Str name) s).
Proof.
  intros Hm. split.
  - intros H. apply In_at_least in H. tauto.
  - intros H. apply (isin_at_least m s (Str name) Hm) in H.
    unfold isin in H. apply existsb_exists in H. destruct H as (k' & Hin & Heq).
    apply cell_eqb_Str in Heq. subst k'. assumption.
Qed.

(** ** Columns, masks and sorting *)

Lemma index_of_None (c : string) (cols : list string) :
  index_of c cols = None <-> ~ In c cols.
Proof.
  induction cols as [| c' t IH]; simpl; [tauto |].
  destruct (String.eqb_spec c' c) as [-> | Hne].
  - split; [discriminate | intros H; exfalso; apply H; left; reflexivity].
  - destruct (index_of c t) as [i |].
    + split; [discriminate |]. intros H. exfalso. apply H. right.
      destruct (in_dec string_dec c t) as [Hin | Hin]; [assumption |].
      apply IH in Hin. discriminate.
    + split; [| reflexivity]. intros _ [H | H]; [contradiction |].
      apply IH in H; [assumption | reflexivity].
Qed.

Lemma index_of_In (c : string) (cols : list string) :
  In c cols -> exists i, index_of c cols = Some i.
Proof.
  intros H. destruct (index_of c cols) as [i |] eqn:E; [exists i; reflexivity |].
  apply index_of_None in E. contradiction.
Qed.

Lemma getcol_missing (df : DataFrame) (c : string) :
  ~ In c (columns df) -> getcol df c = Err (KeyError c).
Proof. intros H. unfold getcol. apply index_of_None in H. rewrite H. reflexivity. Qed.

Lemma getcol_present (df : DataFrame) (c : string) :
  In c (columns df) ->
  exists i, index_of c (columns df) = Some i /\ getcol df c = Ok (map (cell_at i) (rows df)).
Proof.
  intros H. destruct (index_of_In _ _ H) as [i Hi]. exists i.
  unfold getcol. rewrite Hi. auto.
Qed.

Lemma positions_present (cols wanted : list string) :
  (forall c, In c wanted -> In c cols) -> exists ps, positions cols wanted = Ok ps.
Proof.
  induction wanted as [| c t IH]; simpl; intros H; [eexists; reflexivity |].
  destruct (index_of_In c cols) as [i ->]; [apply H; left; reflexivity |].
  destruct IH as [ps ->]; [intros c' Hc'; apply H; right; assumption |].
  eexists. reflexivity.
Qed.

Lemma positions_missing (cols wanted : list string) (c : string) :
  In c wanted -> ~ In c cols ->
  exists k, positions cols wanted = Err (KeyError k) /\ In k wanted /\ ~ In k cols.
Proof.
  induction wanted as [| c' t IH]; simpl; [intros [] |].
  intros Hin Hc. destruct (index_of c' cols) as [i |] eqn:E.
  - destruct Hin as [-> | Hin].
    + apply index_of_None in Hc. congruence.
    + destruct (IH Hin Hc) as (k & -> & Hk & Hnk). exists k. auto.
  - exists c'. apply index_of_None in E. auto.
Qed.

Lemma mask_rows_map (f : Row -> bool) (rs : list Row) :
  mask_rows rs (map f rs) = filter f rs.
Proof.
  induction rs as [| r t IH]; simpl; [reflexivity |].
  rewrite IH. reflexivity.
Qed.

Lemma filter_filter_imp {A : Type} (p q : A -> bool) (l : list A) :
  (forall a, p a = true -> q a = true) -> filter p (filter q l) = filter p l.
Proof.
  intros H. induction l as [| a t IH]; simpl; [reflexivity |].
  destruct (q a) eqn:Hq; simpl.
  - rewrite IH. reflexivity.
  - destruct (p a) eqn:Hp; [| assumption].
    apply H in Hp. congruence.
Qed.

Lemma filter_map_length {A B : Type} (f : B -> bool) (g : A -> B) (l : list A) :
  List.length (filter (fun a => f (g a)) l) = List.length (filter f (map g l)).
Proof.
  induction l as [| a t IH]; simpl; [reflexivity |].
  destruct (f (g a)); simpl; rewrite IH; reflexivity.
Qed.

Lemma insert_by_label_length (r : Row) (l : list Row) :
  List.length (insert_by_label r l) = S (List.length l).
Proof.
  induction l as [| r' t IH]; simpl; [reflexivity |].
  destruct (label r <=? label r')%Z; simpl; [reflexivity | rewrite IH; reflexivity].
Qed.

Lemma insert_by_label_perm (r : Row) (l : list Row) :
  Permutation (insert_by_label r l) (r :: l).
Proof.
  induction l as [| r' t IH]; simpl; [apply Permutation_refl |].
  destruct (label r <=? label r')%Z; [apply Permutation_refl |].
  eapply Permutation_trans; [apply perm_skip; exact IH | apply perm_swap].
Qed.

Lemma insert_by_label_hd (r x : Row) (l : list Row) :
  (label x <= label r)%Z -> HdRel Z.le (label x) (map label l) ->
  HdRel Z.le (label x) (map label (insert_by_label r l)).
Proof.
  destruct l as [| r' t]; simpl; intros Hx Hl; [constructor; assumption |].
  destruct (label r <=? label r')%Z; simpl; constructor; try assumption.
  inversion Hl; assumption.
Qed.

Lemma insert_by_label_sorted (r : Row) (l : list Row) :
  Sorted Z.le (map label l) -> Sorted Z.le (map label (insert_by_label r l)).
Proof.
  induction l as [| r' t IH]; simpl; intros Hs.
  - constructor; constructor.
  - destruct (label r <=? label r')%Z eqn:E; simpl.
    + constructor; [assumption |]. constructor. apply Z.leb_le. assumption.
    + inversion Hs as [| ? ? Hs' Hhd]; subst. constructor; [apply IH; assumption |].
      apply insert_by_label_hd; [| assumption].
      apply Z.leb_gt in E. lia.
Qed.

(** [sort_index] keeps the columns and the rows, and orders the rows by
    their label. *)
Lemma sort_index_columns (df : DataFrame) : columns (sort_index df) = columns df.
Proof. reflexivity. Qed.

Lemma sort_index_perm (df : DataFrame) : Permutation (rows (sort_index df)) (rows df).
Proof.
  unfold sort_index. simpl. induction (rows df) as [| r t IH]; simpl; [constructor |].
  eapply Permutation_trans; [apply insert_by_label_perm |].
  apply perm_skip. assumption.
Qed.

Lemma sort_index_length (df : DataFrame) :
  List.length (rows (sort_index df)) = List.length (rows df).
Proof. apply Permutation_length, sort_index_perm. Qed.

Lemma sort_index_sorted (df : DataFrame) : Sorted Z.le (index (sort_index df)).
Proof.
  unfold index, sort_index. simpl. induction (rows df) as [| r t IH]; simpl.
  - constructor.
  - apply insert_by_label_sorted. assumption.
Qed.

(** ** The split *)

Lemma ceil_frac_fifth (n : nat) :
  n <= 5 * ceil_frac n 1 5 /\ 5 * ceil_frac n 1 5 < n + 5.
Proof.
  unfold ceil_frac. rewrite Nat.mul_1_r. change (5 - 1) with 4.
  pose proof (Nat.div_mod_eq (n + 4) 5) as E.
  pose proof (Nat.mod_upper_bound (n + 4) 5) as B. lia.
Qed.

Lemma arange_prefix {A : Type} (k : nat) (l : list A) : arange 0 k l = firstn k l.
Proof. unfold arange. rewrite Nat.sub_0_r. reflexivity. Qed.

Lemma arange_suffix {A : Type} (k m : nat) (l : list A) :
  k + m = List.length l -> arange k (k + m) l = skipn k l.
Proof.
  intros H. unfold arange. apply firstn_all2. rewrite length_skipn. lia.
Qed.

(** What [train_test_split] returns on [n >= 2] aligned samples. *)
Lemma train_test_split_fifth (X0 : DataFrame) (y0 : Series) :
  List.length y0 = List.length (rows X0) -> 2 <= List.length (rows X0) ->
  let k := List.length (rows X0) - ceil_frac (List.length (rows X0)) 1 5 in
  train_test_split X0 y0 (1, 5) =
  Ok (mkFrame (columns X0) (firstn k (rows X0)), mkFrame (columns X0) (skipn k (rows X0)),
      firstn k y0, skipn k y0).
Proof.
  intros Hy Hn k. unfold train_test_split. simpl fst. simpl snd.
  rewrite Hy, Nat.eqb_refl. simpl negb. cbv iota.
  pose proof (ceil_frac_fifth (List.length (rows X0))) as [B1 B2].
  fold k. destruct (k =? 0) eqn:Ek; [apply Nat.eqb_eq in Ek; subst k; lia |].
  rewrite !arange_prefix, !arange_suffix; [reflexivity | subst k; lia | subst k; lia].
Qed.

(** ** Lines 21-24: the selectable companies *)

Lemma filter_companies_present (d : DataFrame) :
  In "name" (columns d) ->
  exists i, index_of "name" (columns d) = Some i /\
    let valid := at_least 180 (value_counts (map (cell_at i) (rows d))) in
    filter_companies d =
    Ok (valid, mkFrame (columns d) (filter (fun r => isin valid (cell_at i r)) (rows d))).
Proof.
  intros H. destruct (index_of_In _ _ H) as [i Hi]. exists i. split; [assumption |].
  unfold filter_companies, getcol. rewrite Hi. simpl.
  unfold boolean_index, series_isin. rewrite map_map, mask_rows_map. reflexivity.
Qed.

Lemma filter_companies_missing (d : DataFrame) :
  ~ In "name" (columns d) -> filter_companies d = Err (KeyError "name").
Proof.
  intros H. unfold filter_companies. rewrite (getcol_missing d "name" H). reflexivity.
Qed.

Lemma filter_companies_inv (d d' : DataFrame) (valid : list cell) :
  filter_companies d = Ok (valid, d') ->
  exists i, index_of "name" (columns d) = Some i /\
    valid = at_least 180 (value_counts (map (cell_at i) (rows d))) /\
    d' = mkFrame (columns d) (filter (fun r => isin valid (cell_at i r)) (rows d)).
Proof.
  intros H. destruct (in_dec string_dec "name" (columns d)) as [Hin | Hin].
  - destruct (filter_companies_present d Hin) as (i & Hi & E). exists i.
    rewrite E in H. injection H as <- <-. auto.
  - rewrite (filter_companies_missing d Hin) in H. discriminate.
Qed.

(** ** Lines 31-43: the selected company and its split *)

Lemma project_label (ps : list nat) (r : Row) : label (project ps r) = label r.
Proof. reflexivity. Qed.

Lemma split_company_present (d : DataFrame) (sel : cell) (i : nat) :
  index_of "name" (columns d) = Some i ->
  (forall c, In c (target :: features) -> In c (columns d)) ->
  let company :=
    sort_index (mkFrame (columns d) (filter (fun r => cell_eqb (cell_at i r) sel) (rows d))) in
  2 <= List.length (rows company) ->
  exists ps j,
    positions (columns d) features = Ok ps /\ index_of target (columns d) = Some j /\
    let X0 := mkFrame features (map (project ps) (rows company)) in
    let y0 := map (cell_at j) (rows company) in
    let k := List.length (rows company) - ceil_frac (List.length (rows company)) 1 5 in
    split_company d sel =
    Ok (mkSplit company X0 y0
          (mkFrame features (firstn k (rows X0))) (mkFrame features (skipn k (rows X0)))
          (firstn k y0) (skipn k y0)).
Proof.
  intros Hi Hcols company Hn.
  destruct (positions_present (columns d) features) as [ps Hps];
    [intros c Hc; apply Hcols; right; assumption |].
  destruct (index_of_In target (columns d)) as [j Hj]; [apply Hcols; left; reflexivity |].
  exists ps, j. split; [assumption |]. split; [assumption |].
  intros X0 y0 k. unfold split_company, getcol. rewrite Hi.
  cbv beta iota delta [rbind].
  unfold boolean_index, series_eq. rewrite map_map, mask_rows_map. fold company.
  unfold getcols. change (columns company) with (columns d). rewrite Hps.
  cbv beta iota delta [rbind]. change (columns company) with (columns d). rewrite Hj.
  cbv beta iota delta [rbind]. fold X0. fold y0.
  assert (Hlen : List.length (rows X0) = List.length (rows company))
    by (unfold X0; simpl; apply length_map).
  rewrite (train_test_split_fifth X0 y0).
  - cbv beta iota zeta. rewrite Hlen. reflexivity.
  - unfold y0. rewrite length_map. symmetry. assumption.
  - lia.
Qed.

(** Every row of a selectable company survives the filter of line 24,
    so the selected frame has the company's 180 rows or more. *)
Lemma selected_rows (d d' : DataFrame) (valid : list cell) (sel : cell) (i : nat) :
  filter_companies d = Ok (valid, d') -> index_of "name" (columns d) = Some i ->
  In sel valid ->
  filter (fun r => cell_eqb (cell_at i r) sel) (rows d') =
  filter (fun r => cell_eqb (cell_at i r) sel) (rows d) /\
  180 <= List.length (filter (fun r => cell_eqb (cell_at i r) sel) (rows d)).
Proof.
  intros H Hi Hsel. destruct (filter_companies_inv _ _ _ H) as (i' & Hi' & Hv & ->).
  assert (i' = i) by congruence. subst i'. simpl rows. split.
  - apply filter_filter_imp. intros r Hr. unfold isin. apply existsb_exists.
    exists sel. auto.
  - rewrite (filter_map_length (fun c => cell_eqb c sel) (cell_at i)).
    rewrite Hv in Hsel. apply In_at_least in Hsel. apply Hsel.
Qed.

Lemma sorted_app_le (l1 l2 : list Z) :
  Sorted Z.le (l1 ++ l2) -> forall a b, In a l1 -> In b l2 -> (a <= b)%Z.
Proof.
  intros Hs. apply Sorted_StronglySorted in Hs; [| intros x y z; apply Z.le_trans].
  induction l1 as [| x t IH]; simpl in *; intros a b Ha Hb; [contradiction |].
  inversion Hs as [| ? ? Hs' Hall]; subst. destruct Ha as [<- | Ha].
  - rewrite Forall_forall in Hall. apply Hall. apply in_or_app. right. assumption.
  - apply IH; assumption.
Qed.

(** The split of a selectable company, spelled out. *)
Lemma selected_split (d d' : DataFrame) (valid : list cell) (sel : cell) :
  filter_companies d = Ok (valid, d') -> In sel valid ->
  (forall c, In c (target :: features) -> In c (columns d)) ->
  exists sp, split_company d' sel = Ok sp /\
    let n := List.length (rows (company_data sp)) in
    let k := n - ceil_frac n 1 5 in
    180 <= n /\
    Sorted Z.le (index (company_data sp)) /\
    index (X sp) = index (company_data sp) /\
    List.length (y sp) = n /\
    rows (X_train sp) = firstn k (rows (X sp)) /\
    rows (X_test sp) = skipn k (rows (X sp)) /\
    y_train sp = firstn k (y sp) /\
    y_test sp = skipn k (y sp) /\
    columns (X_test sp) = features /\
    exists i, index_of "name" (columns d) = Some i /\
      Permutation (rows (company_data sp))
        (filter (fun r => cell_eqb (cell_at i r) sel) (rows d)).
Proof.
  intros H Hsel Hcols.
  destruct (filter_companies_inv _ _ _ H) as (i & Hi & Hv & Hd').
  destruct (selected_rows _ _ _ _ _ H Hi Hsel) as [Hrows Hlen].
  assert (Hcols' : columns d' = columns d) by (rewrite Hd'; reflexivity).
  destruct (split_company_present d' sel i) as (ps & j & Hps & Hj & E).
  - rewrite Hcols'. assumption.
  - rewrite Hcols'. assumption.
  - rewrite sort_index_length. simpl rows. rewrite Hrows. lia.
  - eexists. split; [exact E |].
    cbn [company_data X y X_train X_test y_train y_test columns].
    split; [rewrite sort_index_length; simpl rows; rewrite Hrows; assumption |].
    split; [apply sort_index_sorted |].
    split; [unfold index; cbn [rows]; rewrite map_map; reflexivity |].
    split; [apply length_map |].
    do 5 (split; [reflexivity |]).
    exists i. split; [assumption |].
    rewrite <- Hrows. apply (sort_index_perm (mkFrame (columns d') _)).
Qed.

(** ** The claims on lines 21-43 *)

(** C2. A company is selectable exactly when its name occurs in at least
    180 rows of the loaded table ([isin] is the membership test of line
    24, [In] the same for a name that is a string), every member of
    [valid_companies] is such a name, and the filtered table keeps the
    columns and holds, in order, exactly the rows whose name is
    selectable. *)
Theorem selectable_iff_180_rows (d d' : DataFrame) (valid : list cell) :
  filter_companies d = Ok (valid, d') ->
  exists i, index_of "name" (columns d) = Some i /\
    let names := map (cell_at i) (rows d) in
    (forall k, isin valid k = true <-> 180 <= occ k names) /\
    (forall n : string, In (Str n) valid <-> 180 <= occ (Str n) names) /\
    (forall k, In k valid -> isna k = false /\ 180 <= occ k names) /\
    columns d' = columns d /\
    rows d' = filter (fun r => isin valid (cell_at i r)) (rows d) /\
    (forall r, In r (rows d') <-> In r (rows d) /\ 180 <= occ (cell_at i r) names).
Proof.
  intros H. destruct (filter_companies_inv _ _ _ H) as (i & Hi & Hv & Hd').
  exists i. split; [assumption |]. intros names.
  assert (Hisin : forall k, isin valid k = true <-> 180 <= occ k names).
  { intros k. rewrite Hv. apply isin_at_least. lia. }
  split; [assumption |].
  split; [intros n; rewrite Hv; apply In_at_least_Str; lia |].
  split; [intros k Hk; rewrite Hv in Hk; apply In_at_least in Hk; assumption |].
  split; [rewrite Hd'; reflexivity |].
  split; [rewrite Hd'; reflexivity |].
  intros r. rewrite Hd'. simpl rows. rewrite filter_In, Hisin. reflexivity.
Qed.

Lemma selectable_iff_180_rows_witness :
  exists i, index_of "name" (columns sample_table) = Some i /\
    let names := map (cell_at i) (rows sample_table) in
    (forall k, isin [Str "ACME"] k = true <-> 180 <= occ k names) /\
    (forall n : string, In (Str n) [Str "ACME"] <-> 180 <= occ (Str n) names) /\
    (forall k, In k [Str "ACME"] -> isna k = false /\ 180 <= occ k names) /\
    columns sample_filtered = columns sample_table /\
    rows sample_filtered = filter (fun r => isin [Str "ACME"] (cell_at i r)) (rows sample_table) /\
    (forall r, In r (rows sample_filtered) <->
               In r (rows sample_table) /\ 180 <= occ (cell_at i r) names).
Proof.
  apply (selectable_iff_180_rows sample_table sample_filtered [Str "ACME"]).
  vm_compute. reflexivity.
Defined.

(** C1. For a selected company the split succeeds and is chronological
    and 80/20: the rows are in ascending order of their index label, the
    train part is the first [n - ceil (n / 5)] of them and the test part
    the remaining [ceil (n / 5)], both in order, for the features and for
    the target alike; train followed by test is the original sequence,
    the train part is 80% of the rows to within one row, and no training
    row is later than a test row. *)
Theorem split_is_chronological_80_20 (d d' : DataFrame) (valid : list cell) (sel : cell) :
  filter_companies d = Ok (valid, d') -> In sel valid ->
  (forall c, In c (target :: features) -> In c (columns d)) ->
  exists sp, split_company d' sel = Ok sp /\
    let n := List.length (rows (X sp)) in
    let n_test := ceil_frac n 1 5 in
    let n_train := n - n_test in
    index (X sp) = index (company_data sp) /\
    Sorted Z.le (index (X sp)) /\
    List.length (y sp) = n /\
    rows (X_train sp) = firstn n_train (rows (X sp)) /\
    rows (X_test sp) = skipn n_train (rows (X sp)) /\
    y_train sp = firstn n_train (y sp) /\
    y_test sp = skipn n_train (y sp) /\
    rows (X_train sp) ++ rows (X_test sp) = rows (X sp) /\
    y_train sp ++ y_test sp = y sp /\
    List.length (rows (X_train sp)) = n_train /\
    List.length (rows (X_test sp)) = n_test /\
    5 * n_train <= 4 * n /\ 4 * n < 5 * n_train + 5 /\
    (forall a b, In a (index (X_train sp)) -> In b (index (X_test sp)) -> (a <= b)%Z) /\
    exists i, index_of "name" (columns d) = Some i /\
      Permutation (rows (company_data sp))
        (filter (fun r => cell_eqb (cell_at i r) sel) (rows d)).
Proof.
  intros H Hsel Hcols.
  destruct (selected_split d d' valid sel H Hsel Hcols)
    as (sp & E & Hn & Hs & Hidx & Hy & Htr & Hte & Hytr & Hyte & _ & Hperm).
  exists sp. split; [assumption |].
  assert (Hlen : List.length (rows (X sp)) = List.length (rows (company_data sp))).
  { rewrite <- (length_map label (rows (X sp))), <- (length_map label (rows (company_data sp))).
    f_equal. exact Hidx. }
  cbv zeta. rewrite Hlen.
  set (n := List.length (rows (company_data sp))) in *.
  pose proof (ceil_frac_fifth n) as [B1 B2].
  set (k := n - ceil_frac n 1 5) in *.
  split; [assumption |].
  split; [rewrite Hidx; assumption |].
  split; [assumption |].
  do 4 (split; [assumption |]).
  split; [rewrite Htr, Hte; apply firstn_skipn |].
  split; [rewrite Hytr, Hyte; apply firstn_skipn |].
  split; [rewrite Htr, length_firstn, Hlen; fold n; lia |].
  split; [rewrite Hte, length_skipn, Hlen; fold n; lia |].
  split; [lia |]. split; [lia |].
  split; [| assumption].
  apply sorted_app_le. unfold index. rewrite <- map_app, Htr, Hte, firstn_skipn.
  fold (index (X sp)). rewrite Hidx. assumption.
Qed.

Lemma sample_has_columns (c : string) :
  In c (target :: features) -> In c (columns sample_table).
Proof.
  simpl. intros H.
  repeat (destruct H as [<- | H]; [tauto |]). contradiction.
Defined.

Lemma sample_filters : filter_companies sample_table = Ok ([Str "ACME"], sample_filtered).
Proof. vm_compute. reflexivity. Defined.

Lemma split_is_chronological_80_20_witness :
  exists sp, split_company sample_filtered (Str "ACME") = Ok sp /\
    let n := List.length (rows (X sp)) in
    let n_test := ceil_frac n 1 5 in
    let n_train := n - n_test in
    index (X sp) = index (company_data sp) /\
    Sorted Z.le (index (X sp)) /\
    List.length (y sp) = n /\
    rows (X_train sp) = firstn n_train (rows (X sp)) /\
    rows (X_test sp) = skipn n_train (rows (X sp)) /\
    y_train sp = firstn n_train (y sp) /\
    y_test sp = skipn n_train (y sp) /\
    rows (X_train sp) ++ rows (X_test sp) = rows (X sp) /\
    y_train sp ++ y_test sp = y sp /\
    List.length (rows (X_train sp)) = n_train /\
    List.length (rows (X_test sp)) = n_test /\
    5 * n_train <= 4 * n /\ 4 * n < 5 * n_train + 5 /\
    (forall a b, In a (index (X_train sp)) -> In b (index (X_test sp)) -> (a <= b)%Z) /\
    exists i, index_of "name" (columns sample_table) = Some i /\
      Permutation (rows (company_data sp))
        (filter (fun r => cell_eqb (cell_at i r) (Str "ACME")) (rows sample_table)).
Proof.
  apply (split_is_chronological_80_20 sample_table sample_filtered [Str "ACME"] (Str "ACME")).
  - exact sample_filters.
  - left. reflexivity.
  - exact sample_has_columns.
Defined.

(** ** The script monad *)

Lemma bind_ok {A B : Type} (m : App A) (f : A -> App B) (s s' : State) (b : B) :
  bind m f s = (s', Ok b) -> exists a s1, m s = (s1, Ok a) /\ f a s1 = (s', Ok b).
Proof.
  unfold bind. destruct (m s) as [s1 [a | e]]; [| discriminate].
  intros H. exists a, s1. auto.
Qed.

Lemma lift_ok {A : Type} (r : result A) (s s' : State) (a : A) :
  lift r s = (s', Ok a) -> r = Ok a /\ s' = s.
Proof. unfold lift. intros H. injection H as <- <-. auto. Qed.

Lemma ret_ok {A : Type} (a b : A) (s s' : State) :
  ret a s = (s', Ok b) -> b = a /\ s' = s.
Proof. unfold ret. intros H. injection H as <- <-. auto. Qed.

Lemma render_ok (e : Element) (s s' : State) (u : unit) :
  render e s = (s', Ok u) ->
  s' = mkState (files s) (cache s) (np_random s) (page s ++ [e]).
Proof. unfold render. intros H. injection H as <-. reflexivity. Qed.

Lemma rbind_ok {A B : Type} (r : result A) (f : A -> result B) (b : B) :
  rbind r f = Ok b -> exists a, r = Ok a /\ f a = Ok b.
Proof. destruct r as [a | e]; simpl; [eauto | discriminate]. Qed.

Lemma writer_lift {A : Type} (r : result A) : writer (lift r).
Proof.
  exists [], r. intros s. unfold lift. rewrite app_nil_r. destruct s; reflexivity.
Qed.

Lemma writer_ret {A : Type} (a : A) : writer (ret a).
Proof. apply (writer_lift (Ok a)). Qed.

Lemma writer_render (e : Element) : writer (render e).
Proof. exists [e], (Ok tt). intros s. reflexivity. Qed.

Lemma writer_bind {A B : Type} (m : App A) (f : A -> App B) :
  writer m -> (forall a, writer (f a)) -> writer (bind m f).
Proof.
  intros (out & [a | e] & Hm) Hf.
  - destruct (Hf a) as (out' & r' & Hfa). exists (out ++ out'), r'. intros s.
    unfold bind. rewrite Hm, Hfa. simpl. rewrite app_assoc. reflexivity.
  - exists out, (Err e). intros s. unfold bind. rewrite Hm. reflexivity.
Qed.

Lemma writer_bind_lift {A B : Type} (r : result A) (f : A -> App B) :
  (forall a, r = Ok a -> writer (f a)) -> writer (bind (lift r) f).
Proof.
  intros Hf. destruct r as [a | e].
  - destruct (Hf a eq_refl) as (out & r' & Hfa). exists out, r'. intros s.
    unfold bind, lift. apply Hfa.
  - exists [], (Err e). intros s. unfold bind, lift. rewrite app_nil_r.
    destruct s; reflexivity.
Qed.

Lemma writer_selectbox (text : string) (options : list cell) (chosen : nat) :
  writer (st_selectbox text options chosen).
Proof. apply writer_bind; [apply writer_render | intros; apply writer_ret]. Qed.

Lemma writer_radio (text : string) (options : list string) (chosen : nat) :
  writer (st_radio text options chosen).
Proof. apply writer_bind; [apply writer_render | intros; apply writer_ret]. Qed.

(** ** Lines 46-51: the model *)

Lemma select_model_cases (choice : string) (m : estimator) :
  select_model choice = Ok m ->
  (choice = "Extra Trees" /\ m = mkEstimator ExtraTreesRegressor 100 (Some 42%Z)) \/
  (choice = "Random Forest" /\ m = mkEstimator RandomForestRegressor 100 (Some 42%Z)).
Proof.
  unfold select_model.
  destruct (String.eqb_spec choice "Extra Trees") as [-> | _].
  - intros H. injection H as <-. left. auto.
  - destruct (String.eqb_spec choice "Random Forest") as [-> | _]; [| discriminate].
    intros H. injection H as <-. right. auto.
Qed.

Lemma select_model_seeded (choice : string) (m : estimator) :
  select_model choice = Ok m -> random_state m = Some 42%Z.
Proof.
  intros H. destruct (select_model_cases _ _ H) as [[_ ->] | [_ ->]]; reflexivity.
Qed.

Lemma radio_choice (chosen : nat) :
  let choice := nth chosen ["Extra Trees"; "Random Forest"] (hd "" ["Extra Trees"; "Random Forest"]) in
  choice = "Extra Trees" \/ choice = "Random Forest".
Proof. destruct chosen as [| [| n]]; simpl; [auto | auto |]. destruct n; auto. Qed.

Section Properties.

Context {L : Library}.

Lemma writer_fit (m : estimator) (X0 : DataFrame) (y0 : Series) (sd : Z) :
  random_state m = Some sd -> writer (fit m X0 y0).
Proof.
  intros H. unfold fit. rewrite H.
  destruct (fit_trees (kind m) (n_estimators m) (seed_rng sd) X0 y0) as [[f g] | e].
  - exists [], (Ok f). intros s. rewrite app_nil_r. destruct s; reflexivity.
  - exists [], (Err e). intros s. rewrite app_nil_r. destruct s; reflexivity.
Qed.

Lemma fit_ok (m : estimator) (X0 : DataFrame) (y0 : Series) (sd : Z) (s s' : State) (f : fitted) :
  random_state m = Some sd -> fit m X0 y0 s = (s', Ok f) ->
  s' = s /\ exists g, fit_trees (kind m) (n_estimators m) (seed_rng sd) X0 y0 = Ok (f, g).
Proof.
  intros H. unfold fit. rewrite H.
  destruct (fit_trees (kind m) (n_estimators m) (seed_rng sd) X0 y0) as [[f' g] | e];
    [| discriminate].
  intros E. injection E as <- <-. eauto.
Qed.

Ltac writer_steps :=
  repeat first
    [ apply writer_ret | apply writer_render | apply writer_lift
    | apply writer_selectbox | apply writer_radio
    | eapply writer_fit; eapply select_model_seeded; eassumption
    | apply writer_bind_lift; intros ? ?
    | apply writer_bind; [| intros ?] ].

(** After [load_data] the script only renders. *)
Lemma after_load_writer (ui : UI) :
  exists K : DataFrame -> App Env,
    app_py ui = bind load_data K /\ forall d, writer (K d).
Proof.
  eexists. split; [reflexivity |]. intros d. cbv beta.
  unfold st_title, st_subheader, st_metric, st_dataframe, st_plotly_chart.
  writer_steps.
Qed.

(** ** Lines 13-18: the cached load *)

Lemma load_data_spec (s : State) :
  load_data s =
  match loaded s with
  | Ok d => (mkState (files s) (Some d) (np_random s) (page s), Ok d)
  | Err e => (s, Err e)
  end.
Proof.
  unfold load_data, cache_data, loaded. destruct s as [fs [d |] g p]; simpl; [reflexivity |].
  destruct (read_parquet fs "data.parquet"); reflexivity.
Qed.

(** A run either stops at the load, or is decided by the loaded table
    alone: the same elements and the same outcome in every state that
    loads this table. *)
Lemma app_py_run (ui : UI) (s : State) :
  (exists e, loaded s = Err e /\ app_py ui s = (s, Err e)) \/
  (exists d out r, loaded s = Ok d /\
     forall s0, loaded s0 = Ok d ->
       app_py ui s0 = (mkState (files s0) (Some d) (np_random s0) (page s0 ++ out), r)).
Proof.
  destruct (after_load_writer ui) as (K & HK & HW).
  destruct (loaded s) as [d | e] eqn:E.
  - right. destruct (HW d) as (out & r & Hout). exists d, out, r. split; [reflexivity |].
    intros s0 E0. rewrite HK. unfold bind. rewrite load_data_spec, E0, Hout. reflexivity.
  - left. exists e. split; [reflexivity |].
    rewrite HK. unfold bind. rewrite load_data_spec, E. reflexivity.
Qed.

(** C6. Two full runs of the script over the same files and selections,
    the second starting from what the first left in the cache and each
    under an arbitrary state of the global random generator, end with the
    same outcome (the same metrics, predictions and forecast when they
    complete) and render the same page; so do two runs from the same
    state but for the generator. *)
Theorem reruns_agree (ui : UI) (fs : FileSystem) (c : option DataFrame) (g1 g2 : RandomState) :
  let run1 := app_py ui (mkState fs c g1 []) in
  let run2 := app_py ui (mkState (files (fst run1)) (cache (fst run1)) g2 []) in
  let run3 := app_py ui (mkState fs c g2 []) in
  snd run1 = snd run2 /\ page (fst run1) = page (fst run2) /\
  snd run1 = snd run3 /\ page (fst run1) = page (fst run3).
Proof.
  cbv zeta.
  destruct (app_py_run ui (mkState fs c g1 [])) as [(e & E & Hrun) | (d & out & r & E & Hrun)].
  - rewrite Hrun. simpl.
    assert (E3 : loaded (mkState fs c g2 []) = Err e) by exact E.
    destruct (app_py_run ui (mkState fs c g2 [])) as [(e2 & E2 & Hrun2) | (d2 & ? & ? & E2 & _)];
      [| congruence].
    rewrite Hrun2. simpl. assert (e2 = e) by congruence. subst e2. auto.
  - rewrite (Hrun _ E). simpl.
    rewrite (Hrun (mkState fs (Some d) g2 []) eq_refl).
    rewrite (Hrun (mkState fs c g2 []) E). simpl. auto.
Qed.

(** ** What a completed run has computed and rendered *)

Lemma train_test_split_ok (X0 a b : DataFrame) (y0 c e : Series) :
  train_test_split X0 y0 (1, 5) = Ok (a, b, c, e) ->
  let n := List.length (rows X0) in
  let k := n - ceil_frac n 1 5 in
  List.length y0 = n /\ 1 <= k /\
  a = mkFrame (columns X0) (firstn k (rows X0)) /\
  b = mkFrame (columns X0) (skipn k (rows X0)) /\
  c = firstn k y0 /\ e = skipn k y0.
Proof.
  intros H n k. unfold train_test_split in H. simpl fst in H. simpl snd in H.
  fold n in H. fold k in H.
  destruct (List.length y0 =? n) eqn:Hy; simpl negb in H; cbv iota in H; [| discriminate].
  apply Nat.eqb_eq in Hy.
  destruct (k =? 0) eqn:Hk; [discriminate |]. apply Nat.eqb_neq in Hk.
  pose proof (ceil_frac_fifth n) as [B1 B2].
  rewrite !arange_prefix, !arange_suffix in H by (subst k; lia).
  injection H as <- <- <- <-. repeat split; try assumption; lia.
Qed.

Lemma getcol_ok (df : DataFrame) (c : string) (s : Series) :
  getcol df c = Ok s -> exists i, index_of c (columns df) = Some i /\ s = map (cell_at i) (rows df).
Proof.
  unfold getcol. destruct (index_of c (columns df)) as [i |]; [| discriminate].
  intros H. injection H as <-. eauto.
Qed.

Lemma split_company_ok (d : DataFrame) (sel : cell) (sp : Split) :
  split_company d sel = Ok sp ->
  exists i ps j,
    index_of "name" (columns d) = Some i /\
    positions (columns d) features = Ok ps /\
    index_of target (columns d) = Some j /\
    company_data sp =
      sort_index (mkFrame (columns d) (filter (fun r => cell_eqb (cell_at i r) sel) (rows d))) /\
    X sp = mkFrame features (map (project ps) (rows (company_data sp))) /\
    y sp = map (cell_at j) (rows (company_data sp)) /\
    let n := List.length (rows (company_data sp)) in
    let k := n - ceil_frac n 1 5 in
    1 <= k /\
    X_train sp = mkFrame features (firstn k (rows (X sp))) /\
    X_test sp = mkFrame features (skipn k (rows (X sp))) /\
    y_train sp = firstn k (y sp) /\
    y_test sp = skipn k (y sp).
Proof.
  unfold split_company. intros H.
  apply rbind_ok in H. destruct H as (names & Hnames & H).
  apply getcol_ok in Hnames. destruct Hnames as (i & Hi & ->).
  unfold boolean_index, series_eq in H. rewrite map_map, mask_rows_map in H.
  set (company := sort_index _) in H.
  apply rbind_ok in H. destruct H as (X0 & HX & H).
  unfold getcols in HX. change (columns company) with (columns d) in HX.
  destruct (positions (columns d) features) as [ps |] eqn:Hps; [| discriminate].
  injection HX as <-.
  apply rbind_ok in H. destruct H as (y0 & Hy & H).
  apply getcol_ok in Hy. change (columns company) with (columns d) in Hy.
  destruct Hy as (j & Hj & ->).
  apply rbind_ok in H. destruct H as ([[[a b] c] e] & Hsplit & H).
  injection H as <-. apply train_test_split_ok in Hsplit.
  cbv zeta in Hsplit. cbn [rows columns] in Hsplit. rewrite !length_map in Hsplit.
  destruct Hsplit as (_ & Hk & -> & -> & -> & ->).
  exists i, ps, j. cbn [company_data X y X_train X_test y_train y_test rows columns].
  repeat split; try assumption; reflexivity.
Qed.

Lemma make_forecast_df_ok (values : list float) (df : list (Z * float)) :
  make_forecast_df values = Ok df ->
  List.length values = 15 /\ df = combine days values /\ map fst df = days.
Proof.
  unfold make_forecast_df. destruct (List.length values =? List.length days) eqn:E;
    [| discriminate].
  apply Nat.eqb_eq in E. intros H. injection H as <-.
  split; [exact E |]. split; [reflexivity |].
  assert (G : forall (l1 : list Z) (l2 : list float),
             List.length l2 = List.length l1 -> map fst (combine l1 l2) = l1).
  { induction l1 as [| z t IH]; destruct l2; simpl; try discriminate; [reflexivity |].
    intros H. f_equal. apply IH. lia. }
  exact (G days values E).
Qed.

Lemma forecast_ok (fm : fitted) (sp : Split) (fc : Forecast) :
  forecast fm sp = Ok fc ->
  exists raw,
    predict fm (iloc_last 15 (X_test sp)) = Ok raw /\ List.length raw = 15 /\
    future_X fc = iloc_last 15 (X_test sp) /\
    future_forecast fc = map (np_round 2) raw /\
    forecast_df fc = combine days (future_forecast fc) /\
    map fst (forecast_df fc) = days.
Proof.
  unfold forecast. intros H.
  apply rbind_ok in H. destruct H as (raw & Hraw & H).
  apply rbind_ok in H. destruct H as (df & Hdf & H).
  injection H as <-. apply make_forecast_df_ok in Hdf.
  destruct Hdf as (Hlen & -> & Hdays). rewrite length_map in Hlen.
  exists raw. cbn [future_X future_forecast forecast_df]. repeat split; assumption.
Qed.

Lemma score_ok (fm : fitted) (sp : Split) (sc : Scores) :
  score fm sp = Ok sc ->
  exists mean,
    predict fm (X_test sp) = Ok (y_pred sc) /\
    mean_absolute_error (y_test sp) (y_pred sc) = Ok (mae sc) /\
    mean_squared_error (y_test sp) (y_pred sc) = Ok (mse sc) /\
    r2_score (y_test sp) (y_pred sc) = Ok (r2 sc) /\
    np_mean (y_test sp) = Ok mean /\
    rmse sc = PrimFloat.sqrt (mse sc) /\
    accuracy sc = estimated_accuracy (mae sc) mean.
Proof.
  unfold score. intros H.
  apply rbind_ok in H. destruct H as (pred & Hpred & H).
  apply rbind_ok in H. destruct H as (mae0 & Hmae & H).
  apply rbind_ok in H. destruct H as (mse0 & Hmse & H).
  apply rbind_ok in H. destruct H as (r20 & Hr2 & H).
  apply rbind_ok in H. destruct H as (mean & Hmean & H).
  injection H as <-. exists mean. simpl. auto 10.
Qed.

Lemma candlestick_fig_ok (cd : DataFrame) (f : Figure) :
  candlestick_fig cd = Ok f -> map trace_name f = ["candlestick"].
Proof.
  unfold candlestick_fig. intros H.
  repeat (apply rbind_ok in H; destruct H as (? & _ & H)).
  injection H as <-. reflexivity.
Qed.

Lemma forecast_fig_ok (sp : Split) (sc : Scores) (fc : Forecast) (f : Figure) :
  forecast_fig sp sc fc = Ok f ->
  map trace_name f = ["Actual Close Price"; "Predicted Close Price"; "Forecasted Close Price"].
Proof.
  unfold forecast_fig. intros H.
  repeat (apply rbind_ok in H; destruct H as (? & _ & H)).
  injection H as <-. reflexivity.
Qed.

Lemma seasonal_fig_ok (cd : DataFrame) (f : Figure) :
  seasonal_fig cd = Ok f -> map trace_name f = ["Trend"; "Seasonality"].
Proof.
  unfold seasonal_fig. intros H.
  repeat (apply rbind_ok in H; destruct H as (? & _ & H)).
  injection H as <-. reflexivity.
Qed.

Lemma metrics_fig_ok (cd : DataFrame) (f : Figure) :
  metrics_fig cd = Ok f -> map trace_name f = ["EMA 10"; "MACD"; "ATR 14"].
Proof.
  unfold metrics_fig. intros H.
  repeat (apply rbind_ok in H; destruct H as (? & _ & H)).
  injection H as <-. reflexivity.
Qed.

Lemma moving_avg_fig_ok (cd cd2 : DataFrame) (f : Figure) :
  moving_avg_fig cd = Ok (cd2, f) ->
  map trace_name f = ["Close Price"; "50-day SMA"; "200-day SMA"] /\
  In "SMA_50" (columns cd2) /\ In "SMA_200" (columns cd2).
Proof.
  unfold moving_avg_fig. intros H.
  do 5 (apply rbind_ok in H; destruct H as (? & _ & H)).
  apply rbind_ok in H. destruct H as (s50 & H50 & H).
  apply rbind_ok in H. destruct H as (s200 & H200 & H).
  injection H as <- <-. split; [reflexivity |].
  assert (G : forall df c s, getcol df c = Ok s -> In c (columns df)).
  { intros df c s Hs. apply getcol_ok in Hs. destruct Hs as (i & Hi & _).
    destruct (in_dec string_dec c (columns df)) as [Hin | Hin]; [assumption |].
    apply index_of_None in Hin. congruence. }
  split; eapply G; eassumption.
Qed.

Lemma selectbox_ok (text : string) (options : list cell) (chosen : nat) (s s' : State) (v : cell) :
  st_selectbox text options chosen s = (s', Ok v) ->
  v = nth chosen options (hd Null options) /\
  s' = mkState (files s) (cache s) (np_random s) (page s ++ [Selectbox text options]).
Proof. unfold st_selectbox, bind, render, ret. intros H. injection H as <- <-. auto. Qed.

Lemma radio_ok (text : string) (options : list string) (chosen : nat) (s s' : State) (v : string) :
  st_radio text options chosen s = (s', Ok v) ->
  v = nth chosen options (hd "" options) /\
  s' = mkState (files s) (cache s) (np_random s) (page s ++ [Radio text options]).
Proof. unfold st_radio, bind, render, ret. intros H. injection H as <- <-. auto. Qed.

Lemma load_data_ok (s s' : State) (d : DataFrame) :
  load_data s = (s', Ok d) ->
  loaded s = Ok d /\ s' = mkState (files s) (Some d) (np_random s) (page s).
Proof.
  rewrite load_data_spec. destruct (loaded s) as [d' | e]; [| discriminate].
  intros H. injection H as <- <-. auto.
Qed.

(** One [bind] of a run that completed: the value bound and what is known
    of it as [Hm], the state replaced by what the step made of it. *)
Ltac script_bind H a Hm :=
  apply bind_ok in H;
  let s1 := fresh "s" in
  destruct H as (a & s1 & Hm & H);
  lazymatch type of Hm with
  | lift _ _ = _ => apply lift_ok in Hm; destruct Hm as [Hm ->]
  | st_selectbox _ _ _ _ = _ => apply selectbox_ok in Hm; destruct Hm as [Hm ->]
  | st_radio _ _ _ _ = _ => apply radio_ok in Hm; destruct Hm as [Hm ->]
  | load_data _ = _ => apply load_data_ok in Hm; destruct Hm as [Hm ->]
  end;
  cbn [files cache np_random page] in H.

Ltac script_render H :=
  apply bind_ok in H;
  let u := fresh "u" in let s1 := fresh "s" in let Hm := fresh "Hm" in
  destruct H as (u & s1 & Hm & H);
  apply render_ok in Hm; subst s1; clear u;
  cbn [files cache np_random page] in H.

Lemma app_py_ok (ui : UI) (s s' : State) (env : Env) :
  app_py ui s = (s', Ok env) ->
  exists d0 g f1 f2 f3 f4 f5,
    loaded s = Ok d0 /\
    filter_companies d0 = Ok (valid_companies env, data env) /\
    selected_company env =
      nth (company_index ui) (valid_companies env) (hd Null (valid_companies env)) /\
    split_company (data env) (selected_company env) = Ok (parts env) /\
    model_choice env =
      nth (model_index ui) ["Extra Trees"; "Random Forest"]
          (hd "" ["Extra Trees"; "Random Forest"]) /\
    select_model (model_choice env) = Ok (model env) /\
    fit_trees (kind (model env)) (n_estimators (model env)) (seed_rng 42)
      (X_train (parts env)) (y_train (parts env)) = Ok (fitted_model env, g) /\
    score (fitted_model env) (parts env) = Ok (scores env) /\
    forecast (fitted_model env) (parts env) = Ok (forecasted env) /\
    candlestick_fig (company_data (parts env)) = Ok f1 /\
    forecast_fig (parts env) (scores env) (forecasted env) = Ok f2 /\
    seasonal_fig (company_data (parts env)) = Ok f3 /\
    metrics_fig (company_data (parts env)) = Ok f4 /\
    moving_avg_fig (company_data (parts env)) = Ok (final_company_data env, f5) /\
    s' = mkState (files s) (Some d0) (np_random s) (page s ++ complete_page env f1 f2 f3 f4 f5).
Proof.
  unfold app_py, st_title, st_subheader, st_metric, st_dataframe, st_plotly_chart.
  intros H.
  script_bind H d0 Hload.
  script_bind H vd Hfilter. destruct vd as [valid d1].
  script_render H.
  script_bind H sel Hsel.
  script_bind H sp Hsplit.
  script_bind H choice Hchoice.
  script_bind H m Hmodel.
  apply bind_ok in H. destruct H as (fm & s1 & Hfit & H).
  apply (fit_ok m _ _ 42%Z) in Hfit; [| eapply select_model_seeded; eassumption].
  destruct Hfit as [-> [g Hfit]].
  script_bind H sc Hscore.
  do 5 script_render H.
  script_bind H fc Hfc.
  do 3 script_render H.
  script_bind H f1 Hf1. do 2 script_render H.
  script_bind H f2 Hf2. do 2 script_render H.
  script_bind H f3 Hf3. do 2 script_render H.
  script_bind H f4 Hf4. do 2 script_render H.
  script_bind H ma Hf5. destruct ma as [cd2 f5].
  script_render H.
  apply ret_ok in H. destruct H as [-> ->].
  exists d0, g, f1, f2, f3, f4, f5. simpl.
  repeat (split; [assumption |]).
  unfold complete_page. simpl. rewrite <- !app_assoc. reflexivity.
Qed.

(** ** The claims on the run *)

(** C4. The radio returns one of its two options; line 48 builds an
    [ExtraTreesRegressor] with 100 trees and seed 42 for "Extra Trees",
    line 50 a [RandomForestRegressor] with 100 trees and seed 42 for
    "Random Forest", and no model is built for anything else; in a
    completed run the model is the one of the radio choice, it is the one
    fitted, on the training part and from the seed 42, and two runs with
    the same radio choice have the same model. *)
Theorem model_is_the_radio_choice :
  (forall chosen,
     let choice := nth chosen ["Extra Trees"; "Random Forest"]
                       (hd "" ["Extra Trees"; "Random Forest"]) in
     choice = "Extra Trees" \/ choice = "Random Forest") /\
  select_model "Extra Trees" = Ok (mkEstimator ExtraTreesRegressor 100 (Some 42%Z)) /\
  select_model "Random Forest" = Ok (mkEstimator RandomForestRegressor 100 (Some 42%Z)) /\
  (forall choice m, select_model choice = Ok m ->
     (choice = "Extra Trees" /\ m = mkEstimator ExtraTreesRegressor 100 (Some 42%Z)) \/
     (choice = "Random Forest" /\ m = mkEstimator RandomForestRegressor 100 (Some 42%Z))) /\
  (forall ui s s' env, app_py ui s = (s', Ok env) ->
     model_choice env = nth (model_index ui) ["Extra Trees"; "Random Forest"]
                            (hd "" ["Extra Trees"; "Random Forest"]) /\
     select_model (model_choice env) = Ok (model env) /\
     exists g, fit_trees (kind (model env)) (n_estimators (model env)) (seed_rng 42)
                 (X_train (parts env)) (y_train (parts env)) = Ok (fitted_model env, g)) /\
  (forall ui1 ui2 s1 s2 s1' s2' env1 env2,
     app_py ui1 s1 = (s1', Ok env1) -> app_py ui2 s2 = (s2', Ok env2) ->
     model_index ui1 = model_index ui2 -> model env1 = model env2).
Proof.
  split; [exact radio_choice |].
  split; [reflexivity |]. split; [reflexivity |].
  split; [exact select_model_cases |].
  split.
  - intros ui s s' env H. apply app_py_ok in H.
    destruct H as (d0 & g & f1 & f2 & f3 & f4 & f5 & _ & _ & _ & _ & Hc & Hm & Hfit & _).
    eauto.
  - intros ui1 ui2 s1 s2 s1' s2' env1 env2 H1 H2 Hui.
    apply app_py_ok in H1, H2.
    destruct H1 as (? & ? & ? & ? & ? & ? & ? & _ & _ & _ & _ & Hc1 & Hm1 & _).
    destruct H2 as (? & ? & ? & ? & ? & ? & ? & _ & _ & _ & _ & Hc2 & Hm2 & _).
    rewrite Hc1, Hui, <- Hc2, Hm2 in Hm1. congruence.
Qed.

(** *** The page of any run *)

Lemma moving_avg_fig_traces (cd : DataFrame) (r : DataFrame * Figure) :
  moving_avg_fig cd = Ok r ->
  map trace_name (snd r) = ["Close Price"; "50-day SMA"; "200-day SMA"].
Proof. destruct r as [cd2 f]. intros H. apply moving_avg_fig_ok in H. apply H. Qed.

Lemma prefix_ret {A : Type} (a : A) : renders_prefix (ret a) [].
Proof.
  exists [], (Ok a), []. split; [| split; [reflexivity | tauto]].
  intros s. unfold ret. rewrite app_nil_r. destruct s; reflexivity.
Qed.

Lemma prefix_render {B : Type} (e : Element) (t : Tag) (f : unit -> App B) (sh : list Tag) :
  tag_of e = t -> renders_prefix (f tt) sh -> renders_prefix (bind (render e) f) (t :: sh).
Proof.
  intros <- (out & r & rest & Hw & -> & Hr).
  exists (e :: out), r, rest. split; [| split; [reflexivity | assumption]].
  intros s. unfold bind, render. rewrite Hw. cbn [files cache np_random page].
  rewrite <- app_assoc. reflexivity.
Qed.

Lemma prefix_lift {A B : Type} (r : result A) (f : A -> App B) (sh : list Tag) :
  sh <> [] -> (forall a, r = Ok a -> renders_prefix (f a) sh) ->
  renders_prefix (bind (lift r) f) sh.
Proof.
  intros Hsh Hf. destruct r as [a | e].
  - destruct (Hf a eq_refl) as (out & r' & rest & Hw & -> & Hr).
    exists out, r', rest. split; [| split; [reflexivity | assumption]].
    intros s. unfold bind, lift. apply Hw.
  - exists [], (Err e), sh. split; [| split; [reflexivity |]].
    + intros s. unfold bind, lift. rewrite app_nil_r. destruct s; reflexivity.
    + simpl. split; [contradiction | discriminate].
Qed.

Lemma prefix_selectbox {B : Type} (text : string) (options : list cell) (chosen : nat)
      (f : cell -> App B) (sh : list Tag) :
  renders_prefix (f (nth chosen options (hd Null options))) sh ->
  renders_prefix (bind (st_selectbox text options chosen) f) (TagSelectbox text :: sh).
Proof.
  intros (out & r & rest & Hw & -> & Hr).
  exists (Selectbox text options :: out), r, rest.
  split; [| split; [reflexivity | assumption]].
  intros s. unfold st_selectbox, bind, render, ret. cbv beta iota. rewrite Hw.
  cbn [files cache np_random page]. rewrite <- app_assoc. reflexivity.
Qed.

Lemma prefix_radio {B : Type} (text : string) (options : list string) (chosen : nat)
      (f : string -> App B) (sh : list Tag) :
  renders_prefix (f (nth chosen options (hd "" options))) sh ->
  renders_prefix (bind (st_radio text options chosen) f) (TagRadio text :: sh).
Proof.
  intros (out & r & rest & Hw & -> & Hr).
  exists (Radio text options :: out), r, rest.
  split; [| split; [reflexivity | assumption]].
  intros s. unfold st_radio, bind, render, ret. cbv beta iota. rewrite Hw.
  cbn [files cache np_random page]. rewrite <- app_assoc. reflexivity.
Qed.

Lemma prefix_fit {B : Type} (m : estimator) (X0 : DataFrame) (y0 : Series) (sd : Z)
      (f : fitted -> App B) (sh : list Tag) :
  random_state m = Some sd -> sh <> [] -> (forall fm, renders_prefix (f fm) sh) ->
  renders_prefix (bind (fit m X0 y0) f) sh.
Proof.
  intros Hm Hsh Hf.
  destruct (fit_trees (kind m) (n_estimators m) (seed_rng sd) X0 y0) as [[fm g] | e] eqn:E.
  - destruct (Hf fm) as (out & r & rest & Hw & -> & Hr).
    exists out, r, rest. split; [| split; [reflexivity | assumption]].
    intros s. unfold bind, fit. rewrite Hm, E. apply Hw.
  - exists [], (Err e), sh. split; [| split; [reflexivity |]].
    + intros s. unfold bind, fit. rewrite Hm, E. rewrite app_nil_r. destruct s; reflexivity.
    + simpl. split; [contradiction | discriminate].
Qed.

Ltac prefix_steps :=
  repeat first
    [ apply prefix_ret
    | apply prefix_selectbox
    | apply prefix_radio
    | apply prefix_render;
      [ first [ reflexivity
              | cbn [tag_of]; f_equal;
                first [ eapply candlestick_fig_ok | eapply forecast_fig_ok
                      | eapply seasonal_fig_ok | eapply metrics_fig_ok
                      | eapply moving_avg_fig_traces ]; eassumption ]
      | cbv beta ]
    | eapply prefix_fit;
      [ eapply select_model_seeded; eassumption | discriminate | intros ? ]
    | apply prefix_lift; [ discriminate | intros ? ? ] ].

(** After [load_data] the script renders an initial part of its page,
    the whole page when nothing raises. *)
Lemma after_load_prefix (ui : UI) :
  exists K : DataFrame -> App Env,
    app_py ui = bind load_data K /\ forall d, renders_prefix (K d) page_shape.
Proof.
  eexists. split; [reflexivity |]. intros d. cbv beta.
  unfold st_title, st_subheader, st_metric, st_dataframe, st_plotly_chart, page_shape.
  prefix_steps.
Qed.

Lemma count_tags (p : Tag -> bool) (elements : list Element) :
  count (fun e => p (tag_of e)) elements = List.length (filter p (map tag_of elements)).
Proof. unfold count. apply filter_map_length. Qed.

Lemma count_ext (p q : Element -> bool) (elements : list Element) :
  (forall e, p e = q e) -> count p elements = count q elements.
Proof. intros H. unfold count. f_equal. apply filter_ext. assumption. Qed.

Lemma chart_of_tag (names : list string) (e : Element) :
  chart_of names e = chart_tag names (tag_of e).
Proof. destruct e; reflexivity. Qed.

Lemma is_chart_tag (e : Element) : is_chart e = any_chart_tag (tag_of e).
Proof. destruct e; reflexivity. Qed.

Lemma metric_labels_tags (elements : list Element) :
  metric_labels elements =
  flat_map (fun t => match t with TagMetric text => [text] | _ => [] end)
           (map tag_of elements).
Proof.
  induction elements as [| e t IH]; simpl; [reflexivity |].
  rewrite <- IH. destruct e; reflexivity.
Qed.

Lemma filter_prefix_le {A : Type} (p : A -> bool) (l rest : list A) :
  List.length (filter p l) <= List.length (filter p (l ++ rest)).
Proof. rewrite filter_app, length_app. lia. Qed.

(** C7, as the script has it. In every run the elements rendered are an
    initial part of the page of the script: title, company selector,
    model selector, the four metrics under their header, the forecast
    table under its header, then under their headers the candlestick
    chart, the forecast plot, the seasonal plot, the indicator plot and
    the moving-averages plot.  The run renders the whole page, so the
    four metrics and each of the five views exactly once, exactly when it
    ends without an exception; a run that raises has rendered a proper
    initial part of the page: each view at most once, at most four
    charts, and never the moving-averages plot. *)
Theorem run_renders_initial_part_of_page (ui : UI) (s : State) :
  exists shown rest,
    page (fst (app_py ui s)) = page s ++ shown /\
    page_shape = map tag_of shown ++ rest /\
    (rest = [] <-> is_ok (snd (app_py ui s)) = true) /\
    (is_ok (snd (app_py ui s)) = true ->
       metric_labels shown =
         ["Mean Absolute Error (MAE)"; "Root Mean Squared Error (RMSE)";
          "R² Score"; "Estimated Accuracy"] /\
       count is_chart shown = 5 /\
       count candlestick_view shown = 1 /\
       count forecast_view shown = 1 /\
       count seasonal_view shown = 1 /\
       count indicator_view shown = 1 /\
       count moving_average_view shown = 1) /\
    (count is_chart shown <= 5 /\
     count candlestick_view shown <= 1 /\
     count forecast_view shown <= 1 /\
     count seasonal_view shown <= 1 /\
     count indicator_view shown <= 1 /\
     count moving_average_view shown <= 1) /\
    (is_ok (snd (app_py ui s)) = false ->
       count is_chart shown <= 4 /\ count moving_average_view shown = 0).
Proof.
  assert (Hrun : exists shown r rest,
            app_py ui s = (mkState (files s) (cache (fst (app_py ui s))) (np_random s)
                             (page s ++ shown), r) /\
            page_shape = map tag_of shown ++ rest /\ (rest = [] <-> is_ok r = true)).
  { destruct (after_load_prefix ui) as (K & HK & HP). rewrite HK. unfold bind.
    rewrite load_data_spec. destruct (loaded s) as [d | e].
    - destruct (HP d) as (out & r & rest & Hw & Hsh & Hr).
      exists out, r, rest. rewrite Hw. cbn [files cache np_random page fst].
      auto.
    - exists [], (Err e), page_shape. cbn [fst]. rewrite app_nil_r.
      split; [destruct s; reflexivity |]. split; [reflexivity |].
      simpl. split; discriminate. }
  destruct Hrun as (shown & r & rest & Hrun & Hsh & Hr).
  exists shown, rest. rewrite Hrun at 1 2 3 4. cbn [fst snd page].
  assert (Hcount : forall names,
            count (chart_of names) shown =
            List.length (filter (chart_tag names) (map tag_of shown))).
  { intros names. rewrite <- count_tags. apply count_ext, chart_of_tag. }
  assert (Hcharts : count is_chart shown =
                    List.length (filter any_chart_tag (map tag_of shown))).
  { rewrite <- count_tags. apply count_ext, is_chart_tag. }
  unfold candlestick_view, forecast_view, seasonal_view, indicator_view,
    moving_average_view.
  rewrite !Hcount, Hcharts, metric_labels_tags.
  split; [reflexivity |]. split; [assumption |]. split; [assumption |].
  split; [| split].
  - intros Hok. apply Hr in Hok. subst rest. rewrite app_nil_r in Hsh.
    rewrite <- Hsh. repeat split; reflexivity.
  - repeat split;
      (eapply Nat.le_trans; [apply filter_prefix_le with (rest := rest) |];
       rewrite <- Hsh; apply Nat.le_refl).
  - intros Herr.
    assert (Hrest : rest <> []).
    { intros E. apply Hr in E. congruence. }
    assert (Hcut : removelast page_shape = map tag_of shown ++ removelast rest).
    { rewrite Hsh. apply removelast_app. assumption. }
    split.
    + eapply Nat.le_trans; [apply filter_prefix_le with (rest := removelast rest) |].
      rewrite <- Hcut. apply Nat.le_refl.
    + apply Nat.le_0_r.
      eapply Nat.le_trans; [apply filter_prefix_le with (rest := removelast rest) |].
      rewrite <- Hcut. apply Nat.le_refl.
Qed.

(** C8. In a completed run the forecast is made on the last 15 rows of
    the test features: rows of the company's own history, under labels of
    its index; its values are the model's predictions on these rows,
    each rounded to two decimals, paired with the days 1 to 15, and this
    table, formatted to two decimals, is on the page. *)
Theorem forecast_is_prediction_on_last_test_rows (ui : UI) (s s' : State) (env : Env) :
  app_py ui s = (s', Ok env) ->
  let sp := parts env in
  let fc := forecasted env in
  future_X fc = iloc_last 15 (X_test sp) /\
  rows (future_X fc) = skipn (List.length (rows (X_test sp)) - 15) (rows (X_test sp)) /\
  List.length (rows (future_X fc)) = 15 /\
  (forall r, In r (rows (future_X fc)) ->
     In r (rows (X_test sp)) /\ In r (rows (X sp)) /\
     In (label r) (index (company_data sp))) /\
  (exists raw, predict (fitted_model env) (future_X fc) = Ok raw /\
               future_forecast fc = map (np_round 2) raw) /\
  forecast_df fc = combine (map Z.of_nat (seq 1 15)) (future_forecast fc) /\
  map fst (forecast_df fc) = map Z.of_nat (seq 1 15) /\
  In (Dataframe (map (fun r => (fst r, format ".2f" (snd r))) (forecast_df fc))) (page s').
Proof.
  intros H sp fc. apply app_py_ok in H.
  destruct H as (d0 & g & f1 & f2 & f3 & f4 & f5 & _ & _ & _ & Hsplit & _ & _ & _ & _
                 & Hfc & _ & _ & _ & _ & _ & ->).
  fold sp in Hsplit, Hfc. fold fc in Hfc.
  apply forecast_ok in Hfc.
  destruct Hfc as (raw & Hraw & Hlen & HfX & Hff & Hdf & Hdays).
  apply split_company_ok in Hsplit.
  destruct Hsplit as (i & ps & j & _ & _ & _ & _ & HX & _ & _ & _ & Hte & _).
  assert (Hrows : rows (future_X fc) =
                  skipn (List.length (rows (X_test sp)) - 15) (rows (X_test sp))).
  { rewrite HfX. unfold iloc_last. simpl rows. apply last_n_skipn. lia. }
  split; [assumption |]. split; [assumption |].
  split; [rewrite <- Hlen; symmetry; apply (predict_length (fitted_model env)); rewrite HfX;
          assumption |].
  split.
  { intros r Hr. rewrite Hrows in Hr. apply In_skipn in Hr.
    split; [assumption |].
    assert (HrX : In r (rows (X sp))).
    { rewrite Hte in Hr. simpl rows in Hr. apply In_skipn in Hr. assumption. }
    split; [assumption |].
    rewrite HX in HrX. simpl rows in HrX. apply in_map_iff in HrX.
    destruct HrX as (r0 & <- & Hr0). unfold index. apply in_map_iff.
    exists r0. split; [reflexivity | assumption]. }
  split; [exists raw; rewrite HfX; auto |].
  split; [assumption |]. split; [assumption |].
  simpl page. apply in_or_app. right. unfold complete_page. fold fc.
  do 9 right. left. reflexivity.
Qed.

(** C10. In a completed run the accuracy shown is [1 - MAE / mean] for
    the mean absolute error of the predictions on the test part and the
    mean of the test part of the closing prices; the root mean squared
    error shown is the square root of the mean squared error; and nothing
    guards the division: when that mean is zero the run has completed all
    the same, with an accuracy that is infinite or NaN. *)
Theorem accuracy_is_one_minus_mae_over_mean (ui : UI) (s s' : State) (env : Env) :
  app_py ui s = (s', Ok env) ->
  let sp := parts env in
  let sc := scores env in
  exists mean,
    getcol (company_data sp) "close" = Ok (y sp) /\
    y_test sp =
      skipn (List.length (y sp) - ceil_frac (List.length (y sp)) 1 5) (y sp) /\
    np_mean (y_test sp) = Ok mean /\
    mean_absolute_error (y_test sp) (y_pred sc) = Ok (mae sc) /\
    mean_squared_error (y_test sp) (y_pred sc) = Ok (mse sc) /\
    accuracy sc = (1 - mae sc / mean)%float /\
    rmse sc = PrimFloat.sqrt (mse sc) /\
    (PrimFloat.is_zero mean = true -> PrimFloat.is_finite (accuracy sc) = false) /\
    In (Metric "Estimated Accuracy" (format ".2%" (accuracy sc))) (page s') /\
    In (Metric "Root Mean Squared Error (RMSE)" (format ".2f" (rmse sc))) (page s').
Proof.
  intros H sp sc. apply app_py_ok in H.
  destruct H as (d0 & g & f1 & f2 & f3 & f4 & f5 & _ & _ & _ & Hsplit & _ & _ & _ & Hsc
                 & _ & _ & _ & _ & _ & _ & ->).
  fold sp in Hsplit, Hsc. fold sc in Hsc.
  apply score_ok in Hsc.
  destruct Hsc as (mean & _ & Hmae & Hmse & _ & Hmean & Hrmse & Hacc).
  apply split_company_ok in Hsplit.
  destruct Hsplit as (i & ps & j & _ & _ & Hj & Hcd & _ & Hy & _ & _ & _ & _ & Hyte).
  exists mean.
  split.
  { unfold getcol. rewrite Hcd at 1. rewrite sort_index_columns. simpl columns.
    change "close" with target. rewrite Hj, Hy. reflexivity. }
  split; [rewrite Hyte, Hy, length_map; reflexivity |].
  do 3 (split; [assumption |]).
  split; [exact Hacc |]. split; [assumption |].
  split; [intros Hz; rewrite Hacc; apply div_by_zero_not_finite; assumption |].
  simpl page. split; apply in_or_app; right; unfold complete_page; fold sc.
  - do 7 right. left. reflexivity.
  - do 5 right. left. reflexivity.
Qed.

(** C9. For a selectable company the split succeeds with at least 180
    rows, of which at least 36 are test rows; the last-15 slice of the
    test features has exactly 15 rows, and whenever the model predicts on
    it the forecast table is built, with the 15 days and 15 values. *)
Theorem forecast_slice_is_full (d d' : DataFrame) (valid : list cell) (sel : cell) :
  filter_companies d = Ok (valid, d') -> In sel valid ->
  (forall c, In c (target :: features) -> In c (columns d)) ->
  exists sp, split_company d' sel = Ok sp /\
    180 <= List.length (rows (company_data sp)) /\
    36 <= List.length (rows (X_test sp)) /\
    rows (iloc_last 15 (X_test sp)) =
      skipn (List.length (rows (X_test sp)) - 15) (rows (X_test sp)) /\
    List.length (rows (iloc_last 15 (X_test sp))) = 15 /\
    forall fm raw, predict fm (iloc_last 15 (X_test sp)) = Ok raw ->
      exists fc, forecast fm sp = Ok fc /\
        List.length (rows (future_X fc)) = 15 /\
        List.length (future_forecast fc) = 15 /\
        List.length (forecast_df fc) = 15 /\
        map fst (forecast_df fc) = map Z.of_nat (seq 1 15).
Proof.
  intros H Hsel Hcols.
  destruct (selected_split d d' valid sel H Hsel Hcols)
    as (sp & E & Hn & _ & Hidx & _ & _ & Hte & _).
  exists sp. split; [assumption |]. split; [assumption |].
  assert (Hlen : List.length (rows (X sp)) = List.length (rows (company_data sp))).
  { rewrite <- (length_map label (rows (X sp))), <- (length_map label (rows (company_data sp))).
    f_equal. exact Hidx. }
  pose proof (ceil_frac_fifth (List.length (rows (company_data sp)))) as [B1 B2].
  assert (Htest : 36 <= List.length (rows (X_test sp))).
  { rewrite Hte, length_skipn, Hlen. lia. }
  split; [assumption |].
  assert (Hslice : rows (iloc_last 15 (X_test sp)) =
                   skipn (List.length (rows (X_test sp)) - 15) (rows (X_test sp))).
  { unfold iloc_last. simpl rows. apply last_n_skipn. lia. }
  assert (H15 : List.length (rows (iloc_last 15 (X_test sp))) = 15).
  { rewrite Hslice, length_skipn. lia. }
  split; [assumption |]. split; [assumption |].
  intros fm raw Hraw.
  assert (Hraw15 : List.length raw = 15).
  { rewrite (predict_length fm _ raw Hraw). assumption. }
  unfold forecast. rewrite Hraw. cbv beta iota delta [rbind].
  unfold make_forecast_df. rewrite length_map, Hraw15. simpl Nat.eqb. cbv iota.
  eexists. split; [reflexivity |].
  cbn [future_X future_forecast forecast_df].
  split; [assumption |]. split; [rewrite length_map; assumption |].
  split.
  - rewrite length_combine, length_map, Hraw15. reflexivity.
  - assert (G : forall (l1 : list Z) (l2 : list float),
               List.length l2 = List.length l1 -> map fst (combine l1 l2) = l1).
    { induction l1 as [| z t IH]; destruct l2; simpl; try discriminate; [reflexivity |].
      intros H0. f_equal. apply IH. lia. }
    apply (G days). rewrite length_map. exact Hraw15.
Qed.

(** ** A missing column *)

Lemma positions_err (cols wanted : list string) (e : exn) :
  positions cols wanted = Err e -> exists k, e = KeyError k /\ In k wanted /\ ~ In k cols.
Proof.
  induction wanted as [| c t IH]; simpl; [discriminate |].
  destruct (index_of c cols) as [i |] eqn:Hi.
  - destruct (positions cols t) as [ps | e']; [discriminate |].
    intros H. injection H as <-. destruct (IH eq_refl) as (k & -> & Hk & Hn).
    exists k. auto.
  - intros H. injection H as <-. exists c. apply index_of_None in Hi. auto.
Qed.

Lemma split_company_missing (d : DataFrame) (sel : cell) (c : string) :
  In "name" (columns d) -> In c (features ++ [target]) -> ~ In c (columns d) ->
  exists k, split_company d sel = Err (KeyError k) /\
            In k (features ++ [target]) /\ ~ In k (columns d).
Proof.
  intros Hname Hc Hmiss. destruct (index_of_In _ _ Hname) as [i Hi].
  unfold split_company, getcol. rewrite Hi. cbv beta iota delta [rbind].
  set (company := sort_index _). unfold getcols.
  change (columns company) with (columns d).
  destruct (positions (columns d) features) as [ps | e] eqn:Hps.
  - apply in_app_or in Hc. destruct Hc as [Hc | [<- | []]].
    + destruct (positions_missing (columns d) features c Hc Hmiss) as (k & E & _).
      congruence.
    + apply index_of_None in Hmiss. rewrite Hmiss. exists target.
      split; [reflexivity |]. split; [apply in_or_app; right; left; reflexivity |].
      apply index_of_None. assumption.
  - destruct (positions_err _ _ _ Hps) as (k & -> & Hk & Hn). exists k.
    split; [reflexivity |]. split; [apply in_or_app; left; assumption | assumption].
Qed.

(** C3. When the loaded table lacks one of the ten columns the script
    reads, the run ends in the [KeyError] of a required column that the
    table lacks, and what it has rendered by then (the title and the
    company selector at most) holds no metric, no forecast table and no
    chart. *)
Theorem missing_column_stops_the_run (ui : UI) (s : State) (d : DataFrame) (c : string) :
  loaded s = Ok d -> In c required_columns -> ~ In c (columns d) ->
  exists k shown,
    snd (app_py ui s) = Err (KeyError k) /\
    In k required_columns /\ ~ In k (columns d) /\
    page (fst (app_py ui s)) = page s ++ shown /\
    filter shows_result shown = [].
Proof.
  intros Hl Hc Hmiss.
  enough (Hrun : exists k shown,
            app_py ui s =
              (mkState (files s) (Some d) (np_random s) (page s ++ shown), Err (KeyError k)) /\
            In k required_columns /\ ~ In k (columns d) /\ filter shows_result shown = []).
  { destruct Hrun as (k & shown & -> & Hk & Hnk & Hshown). exists k, shown. auto. }
  unfold app_py, st_title, st_selectbox, bind. rewrite load_data_spec, Hl.
  unfold lift, render, ret. cbn [files cache np_random page].
  destruct (in_dec string_dec "name" (columns d)) as [Hname | Hname].
  - destruct (filter_companies_present d Hname) as (i & Hi & E).
    cbv zeta in E. set (valid := at_least 180 _) in E.
    set (d1 := mkFrame (columns d) _) in E.
    assert (Hc' : In c (features ++ [target])).
    { unfold required_columns in Hc. apply in_app_or in Hc.
      destruct Hc as [Hc | [<- | [<- | []]]].
      - apply in_or_app. left. assumption.
      - apply in_or_app. right. left. reflexivity.
      - contradiction. }
    destruct (split_company_missing d1
                (nth (company_index ui) valid (hd Null valid)) c Hname Hc' Hmiss)
      as (k & Ek & Hk & Hnk).
    exists k, [Title "Stock Price Forecasting (Extra Trees & Random Forest)";
               Selectbox "Select a company:" valid].
    rewrite E. cbn [fst snd]. rewrite Ek.
    split; [rewrite <- app_assoc; reflexivity |].
    split.
    { unfold required_columns. apply in_app_or in Hk. apply in_or_app.
      destruct Hk as [Hk | [<- | []]]; [left; assumption | right; left; reflexivity]. }
    split; [assumption | reflexivity].
  - exists "name", []. rewrite (filter_companies_missing d Hname).
    split; [rewrite app_nil_r; reflexivity |].
    split; [unfold required_columns; apply in_or_app; right; right; left; reflexivity |].
    split; [assumption | reflexivity].
Qed.

(** ** Further properties of the script *)















(** *** Lines 117-118: setting a column *)


















End Properties.

(** ** The runs on the small table *)

Lemma sample_run_completes :
  is_ok (snd (app_py (L := mean_library) (mkUI 0 1) (fresh sample_table 0%Z))) = true.
Proof. vm_compute. reflexivity. Defined.

Lemma narrow_lacks_volume : ~ In "volume" (columns narrow_table).
Proof.
  cbv. intros H.
  repeat (destruct H as [H | H]; [discriminate H |]). exact H.
Defined.

Lemma missing_column_stops_the_run_witness :
  exists k shown,
    snd (app_py (L := mean_library) (mkUI 0 0) (fresh narrow_table 0%Z)) = Err (KeyError k) /\
    In k required_columns /\ ~ In k (columns narrow_table) /\
    page (fst (app_py (L := mean_library) (mkUI 0 0) (fresh narrow_table 0%Z)))
      = page (fresh narrow_table 0%Z) ++ shown /\
    filter shows_result shown = [].
Proof.
  apply (missing_column_stops_the_run (L := mean_library) (mkUI 0 0)
           (fresh narrow_table 0%Z) narrow_table "volume").
  - reflexivity.
  - cbv. tauto.
  - exact narrow_lacks_volume.
Defined.

Lemma forecast_slice_is_full_witness :
  exists sp, split_company sample_filtered (Str "ACME") = Ok sp /\
    180 <= List.length (rows (company_data sp)) /\
    36 <= List.length (rows (X_test sp)) /\
    rows (iloc_last 15 (X_test sp)) =
      skipn (List.length (rows (X_test sp)) - 15) (rows (X_test sp)) /\
    List.length (rows (iloc_last 15 (X_test sp))) = 15 /\
    forall fm raw, predict (Library := mean_library) fm (iloc_last 15 (X_test sp)) = Ok raw ->
      exists fc, forecast fm sp = Ok fc /\
        List.length (rows (future_X fc)) = 15 /\
        List.length (future_forecast fc) = 15 /\
        List.length (forecast_df fc) = 15 /\
        map fst (forecast_df fc) = map Z.of_nat (seq 1 15).
Proof.
  apply (forecast_slice_is_full (L := mean_library)
           sample_table sample_filtered [Str "ACME"] (Str "ACME")).
  - exact sample_filters.
  - left. reflexivity.
  - exact sample_has_columns.
Defined.

Lemma forecast_is_prediction_on_last_test_rows_witness :
  exists s' env,
    app_py (L := mean_library) (mkUI 0 1) (fresh sample_table 0%Z) = (s', Ok env) /\
    future_X (forecasted env) = iloc_last 15 (X_test (parts env)) /\
    List.length (rows (future_X (forecasted env))) = 15 /\
    map fst (forecast_df (forecasted env)) = map Z.of_nat (seq 1 15).
Proof.
  pose proof sample_run_completes as Hok.
  destruct (app_py (L := mean_library) (mkUI 0 1) (fresh sample_table 0%Z))
    as [s' [env | e]] eqn:E; [| discriminate Hok].
  destruct (forecast_is_prediction_on_last_test_rows (L := mean_library) _ _ _ _ E)
    as (H1 & _ & H3 & _ & _ & _ & H7 & _).
  exists s', env. auto.
Defined.

Lemma accuracy_is_one_minus_mae_over_mean_witness :
  exists s' env mean,
    app_py (L := mean_library) (mkUI 0 1) (fresh sample_table 0%Z) = (s', Ok env) /\
    np_mean (Library := mean_library) (y_test (parts env)) = Ok mean /\
    accuracy (scores env) = (1 - mae (scores env) / mean)%float /\
    rmse (scores env) = PrimFloat.sqrt (mse (scores env)).
Proof.
  pose proof sample_run_completes as Hok.
  destruct (app_py (L := mean_library) (mkUI 0 1) (fresh sample_table 0%Z))
    as [s' [env | e]] eqn:E; [| discriminate Hok].
  destruct (accuracy_is_one_minus_mae_over_mean (L := mean_library) _ _ _ _ E)
    as (mean & _ & _ & H3 & _ & _ & H6 & H7 & _).
  exists s', env, mean. auto.
Defined.

(** C7 fails as stated: on the table whose first ACME closing price is
    missing, ACME is selectable and selected, the table has every
    column, and fitting raises; the page then holds the title and the two
    widgets, and no metric and no chart. *)
Lemma valid_selection_without_charts :
  let run := app_py (L := mean_library) (mkUI 0 0) (fresh gap_table 0%Z) in
  (exists d', filter_companies gap_table = Ok ([Str "ACME"], d')) /\
  nth 0 [Str "ACME"] (hd Null [Str "ACME"]) = Str "ACME" /\
  columns gap_table = sample_columns /\
  snd run = Err (ValueError "Input y contains NaN.") /\
  page (fst run) =
    [Title "Stock Price Forecasting (Extra Trees & Random Forest)";
     Selectbox "Select a company:" [Str "ACME"];
     Radio "Select Model:" ["Extra Trees"; "Random Forest"]] /\
  count is_metric (page (fst run)) = 0 /\
  count is_chart (page (fst run)) = 0.
Proof.
  cbv zeta. split.
  - eexists. vm_compute. reflexivity.
  - repeat split; vm_compute; reflexivity.
Qed.






